(** * A shallow embedding of the data pipeline of [ml_package_framework]

    Source: [src/ml_package_framework/data_processing/data_processors.py],
    class [SberDataProcessor].

    A pandas [DataFrame] is modelled as a [frame]: a list of column labels and a
    list of rows, each row a list of cells aligned with the labels.  Every frame
    the pipeline builds carries a default [RangeIndex] (each stage ends in
    [reset_index], [melt] or a column assignment on such a frame), so the index
    is left implicit: row [i] has label [i].  Cells and labels are [val]s, the
    Python objects that occur in these tables. *)

From Stdlib Require Import ZArith QArith List String Ascii Bool Lia.
From Stdlib Require Import Sorting.Permutation Sorting.Sorted Numbers.DecimalString.
Import ListNotations.

Open Scope Z_scope.

(** ** Values *)

(** Python/numpy objects stored in a table: integers, booleans, floats (as
    exact rationals, with the two infinities and NaN), and strings.  [VNaN] is
    also pandas' missing value ([np.nan]).  The integer columns of the pipeline
    are [int64] columns: an integer cell holds a value of [[-2^63, 2^63)], and
    sums of integer cells wrap around as [int64] arithmetic does.  The
    arithmetic on floats is exact: no statement below depends on the rounding
    of a float result. *)
Inductive val : Type :=
| VInt (z : Z)
| VBool (b : bool)
| VFloat (q : Q)
| VInf (pos : bool)
| VStr (s : string)
| VNaN.

Definition val_eq_dec (x y : val) : {x = y} + {x <> y}.
Proof.
  decide equality;
    first [apply Z.eq_dec | apply Bool.bool_dec | apply string_dec
          | decide equality; first [apply Z.eq_dec | apply Pos.eq_dec]].
Defined.

(** Hash-table equality, used by pandas for group keys, [isin] and index
    lookups: NaN matches NaN there. *)
Definition val_eqb (x y : val) : bool := if val_eq_dec x y then true else false.

Definition num_of (v : val) : option Q :=
  match v with
  | VInt z => Some (inject_Z z)
  | VBool b => Some (if b then 1%Q else 0%Q)
  | VFloat q => Some q
  | _ => None
  end.

(** Element-wise [==] of two Series: NaN is never equal to anything, numbers
    compare by value ([True == 1]). *)
Definition pd_eq (x y : val) : bool :=
  match x, y with
  | VNaN, _ | _, VNaN => false
  | VStr s, VStr t => String.eqb s t
  | VInf p, VInf q => Bool.eqb p q
  | _, _ =>
      match num_of x, num_of y with
      | Some a, Some b => Qeq_bool a b
      | _, _ => false
      end
  end.

(** [str(v)] for the values that reach [astype(str)]. *)
Definition py_str (v : val) : string :=
  match v with
  | VInt z => NilZero.string_of_int (Z.to_int z)
  | VBool true => "True"
  | VBool false => "False"
  | VStr s => s
  | VNaN => "nan"
  | VInf true => "inf"
  | VInf false => "-inf"
  | VFloat q => "<float>"   (* not rendered; the theorems use [py_str] on integers and strings only *)
  end.

(** ** Errors *)

Inductive exc : Type :=
| ValueError (msg : string)
| MissingColumns (missing : list val)   (* ValueError("Missing required columns: ...") *)
| KeyError (key : val)
| TypeError (msg : string)
| OverflowError (msg : string)
| InvalidIndexError.                     (* non-unique index used for a lookup *)

Inductive result (A : Type) : Type :=
| Ok (a : A)
| Err (e : exc).
Arguments Ok {A} a.
Arguments Err {A} e.

Definition bind {A B} (m : result A) (k : A -> result B) : result B :=
  match m with Ok a => k a | Err e => Err e end.

Notation "'let*' x := m 'in' k" := (bind m (fun x => k))
  (at level 200, x name, m at level 100, k at level 200).

Definition is_err {A} (r : result A) : bool :=
  match r with Err _ => true | Ok _ => false end.

(** ** Loading: [load_data] (lines 69-79) *)

(** Python's [s.split(sep)] for a one-character separator. *)
Fixpoint split_on (sep : ascii) (s : string) : list string :=
  match s with
  | EmptyString => [EmptyString]
  | String c rest =>
      match split_on sep rest with
      | [] => [String c EmptyString]
      | w :: ws =>
          if Ascii.eqb c sep then EmptyString :: w :: ws
          else String c w :: ws
      end
  end.

(** [pd.read_csv(path)] / [pd.read_json(path)]: what gets loaded. *)
Inductive loaded : Type :=
| ReadCsv (path : string)
| ReadJson (path : string).

Definition file_extension (path : string) : string :=
  last (split_on "." path) EmptyString.


Definition load_data (path : string) : result loaded :=
  let ext := file_extension path in
  if String.eqb ext "csv" then Ok (ReadCsv path)
  else if String.eqb ext "json" then Ok (ReadJson path)
  else Err (ValueError (String.append "File with the extension '"
                          (String.append ext "' is not supported."))).

Example load_data_csv : load_data "dir/data.csv" = Ok (ReadCsv "dir/data.csv").
Proof. reflexivity. Qed.
Example load_data_xlsx : is_err (load_data "data.xlsx") = true.
Proof. reflexivity. Qed.
Example load_data_bare_csv : load_data "csv" = Ok (ReadCsv "csv").
Proof. reflexivity. Qed.

(** ** Frames *)

Record frame : Type := mkFrame { cols : list val; rows : list (list val) }.

(** Every row has one cell per column label. *)
Definition wf (f : frame) : Prop :=
  Forall (fun r => List.length r = List.length (cols f)) (rows f).

Definition lbl (s : string) : val := VStr s.

(** The cell of row [r] under label [c] (first column with that label). *)
Fixpoint lookup_label (c : val) (cs : list val) (r : list val) : option val :=
  match cs, r with
  | x :: cs', v :: r' => if val_eqb x c then Some v else lookup_label c cs' r'
  | _, _ => None
  end.

Definition cell_of (c : val) (cs : list val) (r : list val) : val :=
  match lookup_label c cs r with Some v => v | None => VNaN end.

Definition has_col (f : frame) (c : val) : bool := existsb (fun x => val_eqb x c) (cols f).

(** [df[c]] *)
Definition get_col (f : frame) (c : val) : result (list val) :=
  if has_col f c then Ok (map (cell_of c (cols f)) (rows f)) else Err (KeyError c).

(** [df[c] = values], the values aligned with the rows: overwrites the column
    when it exists, appends it at the end otherwise. *)
Definition set_col (f : frame) (c : val) (vs : list val) : frame :=
  if has_col f c then
    mkFrame (cols f)
      (map (fun '(r, v) => map (fun '(x, y) => if val_eqb x c then v else y)
                              (combine (cols f) r))
           (combine (rows f) vs))
  else mkFrame (cols f ++ [c]) (map (fun '(r, v) => r ++ [v]) (combine (rows f) vs)).

(** [df.drop(c, axis=1)] *)
Definition drop_col (f : frame) (c : val) : result frame :=
  if has_col f c then
    let keep := fun (x : val) => negb (val_eqb x c) in
    Ok (mkFrame (filter keep (cols f))
                (map (fun r => map snd (filter (fun p => keep (fst p)) (combine (cols f) r)))
                     (rows f)))
  else Err (KeyError c).

(** [df[mask]] followed by [reset_index(drop=True)]. *)
Definition filter_rows (mask : list bool) (f : frame) : frame :=
  mkFrame (cols f) (map snd (filter fst (combine mask (rows f)))).

(** The [required_columns.issubset(df.columns)] guard of the stages. *)
Definition missing_columns (req : list val) (f : frame) : list val :=
  filter (fun c => negb (has_col f c)) req.

Definition require_columns (req : list val) (f : frame) : result unit :=
  match missing_columns req f with
  | [] => Ok tt
  | m => Err (MissingColumns m)
  end.

Fixpoint mapM {A B} (g : A -> result B) (l : list A) : result (list B) :=
  match l with
  | [] => Ok []
  | x :: xs => let* y := g x in let* ys := mapM g xs in Ok (y :: ys)
  end.

(** Positions of the columns whose label is not [c]: the value columns of
    [melt(id_vars=[c])] and the aggregated columns of [groupby(c)]. *)
Definition value_ids (c : val) (f : frame) : list nat :=
  filter (fun j => negb (val_eqb (nth j (cols f) VNaN) c)) (seq 0 (List.length (cols f))).

Definition cell (j : nat) (r : list val) : val := nth j r VNaN.

(** ** Group keys

    [groupby] drops NaN keys ([dropna=True]) and lists the groups in sorted
    key order ([sort=True]): numbers in ascending order, [-inf] first and
    [inf] last, then strings, as pandas' [safe_sort] does for mixed keys. *)

Definition val_leb (x y : val) : bool :=
  match x, y with
  | VStr s, VStr t => negb (match String.compare s t with Gt => true | _ => false end)
  | VStr _, _ => false
  | _, VStr _ => true
  | VInf false, _ | _, VInf true => true
  | VInf true, _ | _, VInf false => false
  | _, _ =>
      match num_of x, num_of y with
      | Some a, Some b => Qle_bool a b
      | _, _ => true
      end
  end.

Fixpoint insert {A} (le : A -> A -> bool) (x : A) (l : list A) : list A :=
  match l with
  | [] => [x]
  | y :: ys => if le x y then x :: y :: ys else y :: insert le x ys
  end.

Fixpoint isort {A} (le : A -> A -> bool) (l : list A) : list A :=
  match l with
  | [] => []
  | x :: xs => insert le x (isort le xs)
  end.

Definition is_nan (v : val) : bool := val_eqb v VNaN.

Definition group_keys (ks : list val) : list val :=
  isort val_leb (nodup val_eq_dec (filter (fun k => negb (is_nan k)) ks)).

(** ** Reductions *)

Definition to_num_val (v : val) : val :=
  match v with VBool b => VInt (if b then 1 else 0) | _ => v end.

(** [int64] wrap-around: the value of [[-2^63, 2^63)] equal to [z] modulo
    [2^64]. *)
Definition wrap64 (z : Z) : Z := (z + 2 ^ 63) mod 2 ^ 64 - 2 ^ 63.


Definition vadd (a b : val) : result val :=
  match a, b with
  | VInt x, VInt y => Ok (VInt (wrap64 (x + y)))
  | VInt x, VFloat q | VFloat q, VInt x => Ok (VFloat (inject_Z x + q)%Q)
  | VFloat p, VFloat q => Ok (VFloat (p + q)%Q)
  | VInf p, VInf q => Ok (if Bool.eqb p q then VInf p else VNaN)
  | VInf p, (VInt _ | VFloat _) | (VInt _ | VFloat _), VInf p => Ok (VInf p)
  | VStr s, VStr t => Ok (VStr (String.append s t))
  | _, _ => Err (TypeError "unsupported operand type(s) for +")
  end.

(** [sum()] with [skipna=True] and [min_count=0]: booleans count as 0/1, an
    empty (or all-NaN) group sums to 0. *)
Definition vsum (l : list val) : result val :=
  match map to_num_val (filter (fun v => negb (is_nan v)) l) with
  | [] => Ok (VInt 0)
  | x :: xs => fold_left (fun acc v => let* a := acc in vadd a v) xs (Ok x)
  end.

Definition vmax2 (a b : val) : result val :=
  match num_of a, num_of b with
  | Some x, Some y => Ok (if Qle_bool y x then a else b)
  | _, _ => Err (TypeError "'>' not supported")
  end.

(** [max()] with [skipna=True]: NaN for an all-NaN group. *)
Definition vmax (l : list val) : result val :=
  match filter (fun v => negb (is_nan v)) l with
  | [] => Ok VNaN
  | x :: xs => fold_left (fun acc v => let* a := acc in vmax2 a v) xs (Ok x)
  end.

(** Truthiness, as used by [any()] (NaN skipped, hence false). *)
Definition truthy (v : val) : bool :=
  match v with
  | VInt z => negb (Z.eqb z 0)
  | VBool b => b
  | VFloat q => negb (Qeq_bool q 0)
  | VInf _ => true
  | VStr s => negb (String.eqb s EmptyString)
  | VNaN => false
  end.

Definition count_label (c : val) (f : frame) : nat :=
  List.length (filter (fun x => val_eqb x c) (cols f)).

(** ** Stage 1: [create_user_item_matrix] (lines 114-125) *)

(** [pd.get_dummies(df, columns=[c], prefix="", prefix_sep="", dtype="bool")]:
    the column [c] is removed and one boolean column per distinct non-NaN value
    of [c] (sorted, named [f"{prefix}{prefix_sep}{level}"], i.e. [str(level)])
    is appended. *)
Definition get_dummies_bool (c : val) (f : frame) : result frame :=
  let* cart := get_col f c in
  let levels := group_keys cart in
  let* base := drop_col f c in
  Ok (mkFrame (cols base ++ map (fun v => VStr (py_str v)) levels)
              (map (fun '(r, x) => r ++ map (fun v => VBool (val_eqb x v)) levels)
                   (combine (rows base) cart))).

Definition pair_eq_dec (p q : val * val) : {p = q} + {p <> q}.
Proof. decide equality; apply val_eq_dec. Defined.

Definition pair_eqb (p q : val * val) : bool := if pair_eq_dec p q then true else false.

(** Lexicographic order on two-column group keys. *)
Definition pair_leb (p q : val * val) : bool :=
  if val_leb (fst p) (fst q) then
    if val_leb (fst q) (fst p) then val_leb (snd p) (snd q) else true
  else false.

Definition pair_keys (ks : list (val * val)) : list (val * val) :=
  isort pair_leb
    (nodup pair_eq_dec (filter (fun p => negb (is_nan (fst p) || is_nan (snd p))) ks)).

(** [df.groupby([k1, k2]).any().reset_index()] *)
Definition groupby2_any (k1 k2 : val) (f : frame) : result frame :=
  if Nat.ltb 1 (count_label k1 f) || Nat.ltb 1 (count_label k2 f) then
    Err (ValueError "Grouper not 1-dimensional")
  else
  let* a := get_col f k1 in
  let* b := get_col f k2 in
  let keys := combine a b in
  let js := filter (fun j => negb (val_eqb (nth j (cols f) VNaN) k1
                                   || val_eqb (nth j (cols f) VNaN) k2))
                   (seq 0 (List.length (cols f))) in
  Ok (mkFrame (k1 :: k2 :: map (fun j => nth j (cols f) VNaN) js)
        (map (fun k =>
                let grp := map snd (filter (fun p => pair_eqb (fst p) k)
                                           (combine keys (rows f))) in
                fst k :: snd k
                  :: map (fun j => VBool (existsb (fun r => truthy (cell j r)) grp)) js)
             (pair_keys keys))).

Definition create_user_item_matrix (df : frame) : result frame :=
  let* _ := require_columns [lbl "cart"; lbl "user_id"; lbl "order_completed_at"] df in
  let* d := get_dummies_bool (lbl "cart") df in
  groupby2_any (lbl "user_id") (lbl "order_completed_at") d.

(** ** Stage 2: [add_purchase_counter] (lines 159-168) *)

(** [groupby(["user_id"]).cumcount()]: the number of earlier rows with the same
    key, in row order; NaN for a NaN key (dropped group). *)
Fixpoint cumcount_from (seen : list val) (us : list val) : list val :=
  match us with
  | [] => []
  | u :: us' =>
      (if is_nan u then VNaN else VInt (Z.of_nat (count_occ val_eq_dec seen u)))
        :: cumcount_from (u :: seen) us'
  end.

Definition cumcount (us : list val) : list val := cumcount_from [] us.

(** Line 166, [df["order_number"] = ...]: this assignment is made on the frame
    passed in by the caller. *)
Definition add_purchase_counter_assign (df : frame) : result frame :=
  let* _ := require_columns [lbl "user_id"; lbl "order_completed_at"] df in
  let* us := get_col df (lbl "user_id") in
  Ok (set_col df (lbl "order_number") (cumcount us)).

Definition add_purchase_counter (df : frame) : result frame :=
  let* df1 := add_purchase_counter_assign df in
  drop_col df1 (lbl "order_completed_at").

(** ** Stage 3: [split_dataset] (lines 204-218) *)

(** [df.groupby([key])[c].transform("max")] *)
Definition groupby_transform_max (key c : val) (f : frame) : result (list val) :=
  let* ks := get_col f key in
  let* xs := get_col f c in
  mapM (fun k => if is_nan k then Ok VNaN
                 else vmax (map snd (filter (fun p => val_eqb (fst p) k) (combine ks xs))))
       ks.

(** [df.groupby(key).sum().reset_index()] *)
Definition groupby_sum (key : val) (f : frame) : result frame :=
  if Nat.ltb 1 (count_label key f) then Err (ValueError "Grouper not 1-dimensional")
  else
  let* ks := get_col f key in
  let js := value_ids key f in
  let* body :=
    mapM (fun k =>
            let grp := map snd (filter (fun p => val_eqb (fst p) k) (combine ks (rows f))) in
            let* sums := mapM (fun j => vsum (map (cell j) grp)) js in
            Ok (k :: sums))
         (group_keys ks) in
  Ok (mkFrame (key :: map (fun j => nth j (cols f) VNaN) js) body).

Definition split_dataset (df : frame) : result (frame * frame) :=
  let* _ := require_columns [lbl "user_id"; lbl "order_number"] df in
  let* mx := groupby_transform_max (lbl "user_id") (lbl "order_number") df in
  let* onum := get_col df (lbl "order_number") in
  let last_order := map (fun '(a, b) => pd_eq a b) (combine mx onum) in
  let* df_ex_last := groupby_sum (lbl "user_id") (filter_rows (map negb last_order) df) in
  let df_incl_last := filter_rows last_order df in
  Ok (df_ex_last, df_incl_last).

(** ** Stage 4: [long_format_transform] (lines 262-274) *)

(** [pd.melt(f, id_vars=[id], var_name=var_name, value_name=value_name)]:
    every column other than [id] becomes a value column, taken one after the
    other (column-major order).  pandas 2 refuses a [value_name] that is
    already a column label. *)
Definition melt (id var_name value_name : val) (f : frame) : result frame :=
  if has_col f value_name then
    Err (ValueError "value_name cannot match an element in the DataFrame columns.")
  else
  let* _ := get_col f id in
  let js := value_ids id f in
  Ok (mkFrame [id; var_name; value_name]
        (flat_map (fun j => map (fun r => [cell_of id (cols f) r; nth j (cols f) VNaN; cell j r])
                                (rows f)) js)).

Definition long_format_transform (df_ex_last df_incl_last : frame) : result (frame * frame) :=
  let* df_ex_last_long := melt (lbl "user_id") (lbl "category") (lbl "ordered") df_ex_last in
  let* df_incl_last_long := melt (lbl "user_id") (lbl "category") (lbl "target") df_incl_last in
  Ok (df_ex_last_long, df_incl_last_long).

(** ** Stage 5: [calculate_features] (lines 309-317) *)

(** The result of [.squeeze()] on a one-column frame: a scalar when the frame
    has exactly one row, otherwise a Series (index and values). *)
Inductive squeezed : Type :=
| SqScalar (v : val)
| SqSeries (index : list val) (values : list val).

Definition squeeze_col (index values : list val) : squeezed :=
  match values with
  | [v] => SqScalar v
  | _ => SqSeries index values
  end.

Fixpoint index_lookup (x : val) (index values : list val) : val :=
  match index, values with
  | i :: is, v :: vs => if val_eqb i x then v else index_lookup x is vs
  | _, _ => VNaN
  end.

Definition unique_b (l : list val) : bool :=
  Nat.eqb (List.length (nodup val_eq_dec l)) (List.length l).

(** [s.map(arg)].  A Series argument is looked up by index label ([NaN] for a
    missing label; a non-unique index raises); any other argument is called as
    a function on each element, which a number cannot be. *)
Definition series_map (xs : list val) (arg : squeezed) : result (list val) :=
  match arg with
  | SqScalar _ =>
      match xs with
      | [] => Ok []
      | _ :: _ => Err (TypeError "object is not callable")
      end
  | SqSeries idx vs =>
      if unique_b idx then Ok (map (fun x => index_lookup x idx vs) xs)
      else Err InvalidIndexError
  end.

(** True division of two cells. *)
Definition vdiv (a b : val) : result val :=
  match num_of a, num_of b with
  | Some x, Some y =>
      if Qeq_bool y 0 then
        Ok (if Qeq_bool x 0 then VNaN else VInf (negb (Qle_bool x 0)))
      else Ok (VFloat (x / y)%Q)
  | _, _ =>
      if is_nan a || is_nan b then Ok VNaN
      else Err (TypeError "unsupported operand type(s) for /")
  end.

(** [+] on two object cells; a missing value propagates. *)
Definition str_add (a b : val) : result val :=
  match a, b with
  | VStr s, VStr t => Ok (VStr (String.append s t))
  | VNaN, _ | _, VNaN => Ok VNaN
  | _, _ => Err (TypeError "can only concatenate str")
  end.

(** [train_df] is a [.copy()] of the argument, so the frame of the caller is
    not touched. *)
Definition calculate_features (df_ex_last_flatten df_incl_last : frame) : result frame :=
  let* us := get_col df_incl_last (lbl "user_id") in
  let* ons := get_col df_incl_last (lbl "order_number") in
  let order_number := squeeze_col us ons in
  let train_df := df_ex_last_flatten in
  let* tus := get_col train_df (lbl "user_id") in
  let* orders_total := series_map tus order_number in
  let train_df := set_col train_df (lbl "orders_total") orders_total in
  let* ordered := get_col train_df (lbl "ordered") in
  let* tot := get_col train_df (lbl "orders_total") in
  let* rating := mapM (fun '(a, b) => vdiv a b) (combine ordered tot) in
  let train_df := set_col train_df (lbl "rating") rating in
  let* tus := get_col train_df (lbl "user_id") in
  let* cats := get_col train_df (lbl "category") in
  let* ids := mapM (fun '(u, c) => str_add (VStr (String.append (py_str u) ";")) c)
                   (combine tus cats) in
  Ok (set_col train_df (lbl "id") ids).

(** ** Stage 6: [merge_and_filter] (lines 359-363) *)

(** [int(s)] on a string (read as ASCII text): surrounding white space,
    an optional sign, then decimal digits, single underscores allowed between
    two digits. *)
Definition py_space (c : ascii) : bool :=
  let n := nat_of_ascii c in
  (Nat.leb 9 n && Nat.leb n 13) || (Nat.leb 28 n && Nat.leb n 32).

Definition digit_of (c : ascii) : option Z :=
  let n := nat_of_ascii c in
  if Nat.leb 48 n && Nat.leb n 57 then Some (Z.of_nat n - 48) else None.

Fixpoint parse_digits (acc : Z) (after_digit : bool) (cs : list ascii) : option Z :=
  match cs with
  | [] => if after_digit then Some acc else None
  | c :: cs' =>
      match digit_of c with
      | Some d => parse_digits (acc * 10 + d) true cs'
      | None =>
          if after_digit && Ascii.eqb c "_"%char then parse_digits acc false cs' else None
      end
  end.

Fixpoint drop_spaces (cs : list ascii) : list ascii :=
  match cs with
  | c :: cs' => if py_space c then drop_spaces cs' else cs
  | [] => []
  end.

Definition py_int_of_string (s : string) : option Z :=
  let cs := rev (drop_spaces (rev (drop_spaces (list_ascii_of_string s)))) in
  match cs with
  | "-"%char :: ds => option_map Z.opp (parse_digits 0 false ds)
  | "+"%char :: ds => parse_digits 0 false ds
  | ds => parse_digits 0 false ds
  end.

Definition int64_or_overflow (z : Z) : result val :=
  if (- 2 ^ 63 <=? z) && (z <? 2 ^ 63) then Ok (VInt z)
  else Err (OverflowError "Python int too large to convert to C long").

(** [astype(int)] on the holdout's [target] column.  That column is the
    [value] column of a [melt] over boolean item columns and the integer
    [order_number], hence an [object] column, which numpy converts cell by
    cell, in order, with Python's [int()] and a range check for [int64]. *)
Definition astype_int (v : val) : result val :=
  match v with
  | VInt z => int64_or_overflow z
  | VBool b => Ok (VInt (if b then 1 else 0))
  | VFloat q => int64_or_overflow (Z.quot (Qnum q) (Zpos (Qden q)))
  | VInf _ => Err (OverflowError "cannot convert float infinity to integer")
  | VNaN => Err (ValueError "cannot convert float NaN to integer")
  | VStr s =>
      match py_int_of_string s with
      | Some z => int64_or_overflow z
      | None => Err (ValueError "invalid literal for int() with base 10")
      end
  end.

(** Assigning a Series to a column aligns it on the index: both frames carry
    a [RangeIndex], so row [i] receives element [i], or NaN past its end. *)
Definition align (n : nat) (vs : list val) : list val :=
  map (fun i => nth i vs VNaN) (seq 0 n).

(** Line 359, [train_df["target"] = ...]: on the frame passed in. *)
Definition merge_and_filter_assign (train_df df_incl_last : frame) : result frame :=
  let* tg := get_col df_incl_last (lbl "target") in
  let* tg := mapM astype_int tg in
  Ok (set_col train_df (lbl "target") (align (List.length (rows train_df)) tg)).

(** Lines 360-362: [train_df[train_df.id.isin(submission_df.id.unique())]]. *)
Definition merge_and_filter_select (train_df submission_df : frame) : result frame :=
  let* ids := get_col train_df (lbl "id") in
  let* allowed := get_col submission_df (lbl "id") in
  let allowed := nodup val_eq_dec allowed in
  Ok (filter_rows (map (fun x => existsb (val_eqb x) allowed) ids) train_df).

Definition merge_and_filter (train_df df_incl_last submission_df : frame) : result frame :=
  let* train_df := merge_and_filter_assign train_df df_incl_last in
  merge_and_filter_select train_df submission_df.

(** ** Stage 7: [calculate_total_ordered] (lines 391-393) *)

(** [f.groupby(key)[c].sum()]: a Series indexed by the group keys. *)
Definition groupby_col_sum (key c : val) (f : frame) : result squeezed :=
  let* ks := get_col f key in
  let* xs := get_col f c in
  let gks := group_keys ks in
  let* sums := mapM (fun k => vsum (map snd (filter (fun p => val_eqb (fst p) k)
                                                    (combine ks xs)))) gks in
  Ok (SqSeries gks sums).

Definition calculate_total_ordered (train_df : frame) : result frame :=
  let* total_ordered := groupby_col_sum (lbl "category") (lbl "ordered") train_df in
  let* cats := get_col train_df (lbl "category") in
  let* tot := series_map cats total_ordered in
  Ok (set_col train_df (lbl "total_ordered") tot).

(** ** [process_data] (lines 422-434) *)

Definition process_data (data sub : frame) : result frame :=
  let* intersection_matrix := create_user_item_matrix data in
  let* with_counter := add_purchase_counter intersection_matrix in
  let* split := split_dataset with_counter in
  let (df_ex_last, df_incl_last) := split in
  let* flat := long_format_transform df_ex_last df_incl_last in
  let (df_ex_last_flatten, df_incl_last_flatten) := flat in
  let* train_df := calculate_features df_ex_last_flatten df_incl_last in
  let* train_df := merge_and_filter train_df df_incl_last_flatten sub in
  calculate_total_ordered train_df.

(** ** Frames passed by reference

    pandas frames are mutable Python objects: [df[c] = ...] changes the object
    the caller holds.  Here frames live in a store and the stages take and
    return locations, following each function line by line. *)
Module Heap.

Definition loc := nat.
Definition store := list frame.
Definition St (A : Type) := store -> result A * store.

Definition ret {A} (a : A) : St A := fun s => (Ok a, s).

Definition sbind {A B} (m : St A) (k : A -> St B) : St B :=
  fun s => match m s with
           | (Ok a, s') => k a s'
           | (Err e, s') => (Err e, s')
           end.

Notation "x <- m ;; k" := (sbind m (fun x => k)) (at level 61, m at next level, right associativity).

Definition lift {A} (r : result A) : St A := fun s => (r, s).

Definition deref (l : loc) : St frame :=
  fun s => match nth_error s l with
           | Some f => (Ok f, s)
           | None => (Err (ValueError "dangling reference"), s)
           end.

(** [df[c] = ...] on the object at [l]. *)
Definition update (l : loc) (f : frame) : St unit :=
  fun s => (Ok tt, firstn l s ++ f :: skipn (S l) s).

(** A new object. *)
Definition alloc (f : frame) : St loc := fun s => (Ok (List.length s), s ++ [f]).

Definition add_purchase_counter (l : loc) : St loc :=
  df <- deref l;;
  df1 <- lift (add_purchase_counter_assign df);;
  _ <- update l df1;;
  df2 <- lift (drop_col df1 (lbl "order_completed_at"));;
  alloc df2.

Definition calculate_features (l_ex l_incl : loc) : St loc :=
  df_ex <- deref l_ex;;
  df_incl <- deref l_incl;;
  train <- alloc df_ex;;
  t <- lift (calculate_features df_ex df_incl);;
  _ <- update train t;;
  ret train.

Definition merge_and_filter (l_train l_incl l_sub : loc) : St loc :=
  train <- deref l_train;;
  incl <- deref l_incl;;
  sub <- deref l_sub;;
  t1 <- lift (merge_and_filter_assign train incl);;
  _ <- update l_train t1;;
  t2 <- lift (merge_and_filter_select t1 sub);;
  alloc t2.

Definition calculate_total_ordered (l : loc) : St loc :=
  train <- deref l;;
  t <- lift (calculate_total_ordered train);;
  _ <- update l t;;
  ret l.

End Heap.

(** ** Cell types *)




(** ** Sample tables *)

(** The scenario of the specification: user 1 orders {A} then {A, B}, user 2
    orders {A} once. *)
Definition events_2u : frame :=
  mkFrame [lbl "user_id"; lbl "order_completed_at"; lbl "cart"]
    [[VInt 1; VStr "t1"; VStr "A"]; [VInt 1; VStr "t2"; VStr "A"];
     [VInt 1; VStr "t2"; VStr "B"]; [VInt 2; VStr "t1"; VStr "A"]].

Definition allow_2u : frame :=
  mkFrame [lbl "id"] [[VStr "1;A"]; [VStr "1;B"]; [VStr "2;A"]].

(** Its user-item matrix (stage 1). *)
Definition matrix_2u : frame :=
  mkFrame [lbl "user_id"; lbl "order_completed_at"; lbl "A"; lbl "B"]
    [[VInt 1; VStr "t1"; VBool true; VBool false];
     [VInt 1; VStr "t2"; VBool true; VBool true];
     [VInt 2; VStr "t1"; VBool true; VBool false]].

(** A feature table and a long holdout table as stage 5 and stage 4 build
    them for [events_2u]. *)
Definition features_2u : frame :=
  mkFrame [lbl "user_id"; lbl "category"; lbl "ordered"; lbl "id"]
    [[VInt 1; VStr "A"; VInt 1; VStr "1;A"];
     [VInt 1; VStr "B"; VInt 0; VStr "1;B"];
     [VInt 1; VStr "order_number"; VInt 0; VStr "1;order_number"]].

Definition holdout_long_2u : frame :=
  mkFrame [lbl "user_id"; lbl "category"; lbl "target"]
    [[VInt 1; VStr "A"; VBool true]; [VInt 2; VStr "A"; VBool true];
     [VInt 1; VStr "B"; VBool true]; [VInt 2; VStr "B"; VBool false];
     [VInt 1; VStr "order_number"; VInt 1]; [VInt 2; VStr "order_number"; VInt 0]].

(** Inputs of [split_dataset]: one user with two orders, and one user with a
    single order; one item column [A]. *)
Definition seq_1u2 : frame :=
  mkFrame [lbl "user_id"; lbl "A"; lbl "order_number"]
    [[VInt 1; VBool true; VInt 0]; [VInt 1; VBool false; VInt 1]].

Definition seq_1u1 : frame :=
  mkFrame [lbl "user_id"; lbl "A"; lbl "order_number"] [[VInt 1; VBool true; VInt 0]].

Example process_data_2u :
  process_data events_2u allow_2u =
  Ok (mkFrame [lbl "user_id"; lbl "category"; lbl "ordered"; lbl "orders_total";
               lbl "rating"; lbl "id"; lbl "target"; lbl "total_ordered"]
        [[VInt 1; VStr "A"; VInt 1; VInt 1; VFloat 1; VStr "1;A"; VInt 1; VInt 1];
         [VInt 1; VStr "B"; VInt 0; VInt 1; VFloat 0; VStr "1;B"; VInt 1; VInt 0]]).
Proof. reflexivity. Qed.

(** Inputs of [calculate_features]: a long history table of user 3, a
    holdout table of users 1 and 2, and long history tables with no row and
    with one row of user 1 (the single-user holdout is [seq_1u1]). *)
Definition long_hist_u3 : frame :=
  mkFrame [lbl "user_id"; lbl "category"; lbl "ordered"] [[VInt 3; VStr "A"; VInt 1]].

Definition holdout_u12 : frame :=
  mkFrame [lbl "user_id"; lbl "A"; lbl "order_number"]
    [[VInt 1; VBool true; VInt 1]; [VInt 2; VBool false; VInt 2]].

Definition long_hist_empty : frame :=
  mkFrame [lbl "user_id"; lbl "category"; lbl "ordered"] [].

Definition long_hist_u1 : frame :=
  mkFrame [lbl "user_id"; lbl "category"; lbl "ordered"] [[VInt 1; VStr "A"; VInt 1]].


(** A whole dataset of one user with a single order of one item. *)
Definition events_1u1 : frame :=
  mkFrame [lbl "user_id"; lbl "order_completed_at"; lbl "cart"] [[VInt 1; VStr "t1"; VStr "A"]].


(** * Proofs *)

(** ** Equality and lookups *)

Lemma val_eqb_eq x y : val_eqb x y = true <-> x = y.
Proof. unfold val_eqb; destruct (val_eq_dec x y); split; congruence. Qed.

Lemma val_eqb_refl x : val_eqb x x = true.
Proof. apply val_eqb_eq; reflexivity. Qed.

Lemma val_eqb_sym x y : val_eqb x y = val_eqb y x.
Proof.
  destruct (val_eqb x y) eqn:E1, (val_eqb y x) eqn:E2; auto.
  - apply val_eqb_eq in E1; subst; rewrite val_eqb_refl in E2; discriminate.
  - apply val_eqb_eq in E2; subst; rewrite val_eqb_refl in E1; discriminate.
Qed.



Lemma lookup_label_find c cs r :
  lookup_label c cs r = option_map snd (find (fun p => val_eqb (fst p) c) (combine cs r)).
Proof.
  revert r; induction cs as [|x cs IH]; intros [|v r]; simpl; auto.
  destruct (val_eqb x c); auto.
Qed.

Lemma lookup_label_replace c d v cs r :
  lookup_label d cs (map (fun '(x, y) => if val_eqb x c then v else y) (combine cs r)) =
  match lookup_label d cs r with
  | Some y => Some (if val_eqb d c then v else y)
  | None => None
  end.
Proof.
  revert r; induction cs as [|x cs IH]; intros [|y r]; simpl; auto.
  destruct (val_eqb x d) eqn:E; auto.
  apply val_eqb_eq in E; subst; reflexivity.
Qed.

Lemma lookup_label_app d cs r c v :
  List.length r = List.length cs ->
  lookup_label d (cs ++ [c]) (r ++ [v]) =
  match lookup_label d cs r with
  | Some y => Some y
  | None => if val_eqb c d then Some v else None
  end.
Proof.
  revert r; induction cs as [|x cs IH]; intros [|y r] Hl; simpl in *;
    try discriminate; auto.
  destruct (val_eqb x d); auto.
Qed.

Lemma lookup_label_present c cs r :
  List.length r = List.length cs -> existsb (fun x => val_eqb x c) cs = true ->
  exists y, lookup_label c cs r = Some y.
Proof.
  revert r; induction cs as [|x cs IH]; intros [|y r] Hl Hin; simpl in *;
    try discriminate.
  destruct (val_eqb x c); eauto.
Qed.

Lemma map_combine_r {A B C} (g : A * B -> C) (h : C -> B) (P : A -> Prop) rs vs :
  List.length vs = List.length rs -> Forall P rs ->
  (forall r v, P r -> h (g (r, v)) = v) ->
  map h (map g (combine rs vs)) = vs.
Proof.
  revert vs; induction rs as [|r rs IH]; intros [|v vs] Hl HP Hg; simpl in *;
    try discriminate; auto.
  inversion HP; subst; f_equal; auto.
Qed.

Lemma map_combine_l {A B C D} (g : A * B -> C) (h : C -> D) (h' : A -> D) (P : A -> Prop) rs vs :
  List.length vs = List.length rs -> Forall P rs ->
  (forall r v, P r -> h (g (r, v)) = h' r) ->
  map h (map g (combine rs vs)) = map h' rs.
Proof.
  revert vs; induction rs as [|r rs IH]; intros [|v vs] Hl HP Hg; simpl in *;
    try discriminate; auto.
  inversion HP; subst; f_equal; auto.
Qed.

(** ** Column assignment and removal *)

Lemma has_col_set_col f c vs d :
  has_col (set_col f c vs) d = has_col f d || val_eqb c d.
Proof.
  unfold set_col, has_col; destruct (existsb (fun x => val_eqb x c) (cols f)) eqn:E; simpl.
  - destruct (val_eqb c d) eqn:Ecd; [|now rewrite orb_false_r].
    apply val_eqb_eq in Ecd; subst; now rewrite E.
  - rewrite existsb_app; simpl; now rewrite orb_false_r.
Qed.

Lemma rows_set_col f c vs :
  List.length vs = List.length (rows f) ->
  List.length (rows (set_col f c vs)) = List.length (rows f).
Proof.
  intros Hl; unfold set_col; destruct (has_col f c); simpl;
    rewrite length_map, length_combine; lia.
Qed.

Lemma wf_set_col f c vs : wf f -> wf (set_col f c vs).
Proof.
  unfold wf, set_col; intros Hwf; rewrite Forall_forall in *.
  destruct (has_col f c); simpl; intros r' Hr';
    apply in_map_iff in Hr'; destruct Hr' as [[r v] [<- Hin]];
    apply in_combine_l in Hin; specialize (Hwf r Hin).
  - rewrite length_map, length_combine; lia.
  - rewrite !length_app; simpl; lia.
Qed.

Lemma get_col_set_col f c vs d :
  wf f -> List.length vs = List.length (rows f) ->
  get_col (set_col f c vs) d = if val_eqb d c then Ok vs else get_col f d.
Proof.
  intros Hwf Hl; unfold get_col; rewrite has_col_set_col.
  destruct (val_eqb d c) eqn:Edc.
  - apply val_eqb_eq in Edc; subst d; rewrite val_eqb_refl, orb_true_r; f_equal.
    unfold set_col; destruct (has_col f c) eqn:Hc; simpl.
    + apply (map_combine_r _ _ _ _ _ Hl Hwf); intros r v Hr.
      unfold cell_of; rewrite lookup_label_replace.
      destruct (lookup_label_present c (cols f) r Hr Hc) as [y ->].
      now rewrite val_eqb_refl.
    + apply (map_combine_r _ _ _ _ _ Hl Hwf); intros r v Hr.
      unfold cell_of; rewrite lookup_label_app by exact Hr.
      destruct (lookup_label c (cols f) r) eqn:Hlk.
      * exfalso. assert (Hin : existsb (fun x => val_eqb x c) (cols f) = true).
        { clear -Hlk. revert r Hlk. induction (cols f) as [|x xs IH]; intros [|y r] H;
            simpl in *; try discriminate.
          destruct (val_eqb x c); simpl; eauto. }
        unfold has_col in Hc; congruence.
      * now rewrite val_eqb_refl.
  - rewrite val_eqb_sym in Edc; rewrite Edc, orb_false_r.
    destruct (has_col f d) eqn:Hd; auto; f_equal.
    unfold set_col; destruct (has_col f c) eqn:Hc; simpl.
    + apply (map_combine_l _ _ _ _ _ _ Hl Hwf); intros r v Hr.
      unfold cell_of; rewrite lookup_label_replace.
      rewrite val_eqb_sym in Edc; rewrite Edc.
      destruct (lookup_label d (cols f) r); auto.
    + apply (map_combine_l _ _ _ _ _ _ Hl Hwf); intros r v Hr.
      unfold cell_of; rewrite lookup_label_app by exact Hr.
      destruct (lookup_label_present d (cols f) r Hr Hd) as [y ->]; auto.
Qed.

Lemma filter_combine_fst (keep : val -> bool) (cs r : list val) :
  List.length r = List.length cs ->
  combine (filter keep cs) (map snd (filter (fun p => keep (fst p)) (combine cs r))) =
  filter (fun p => keep (fst p)) (combine cs r).
Proof.
  revert r; induction cs as [|x cs IH]; intros [|y r] Hl; simpl in *;
    try discriminate; auto.
  destruct (keep x); simpl; f_equal; auto.
Qed.

Lemma length_filter_combine (keep : val -> bool) (cs r : list val) :
  List.length r = List.length cs ->
  List.length (filter (fun p => keep (fst p)) (combine cs r)) = List.length (filter keep cs).
Proof.
  revert r; induction cs as [|x cs IH]; intros [|y r] Hl; simpl in *;
    try discriminate; auto.
  destruct (keep x); simpl; auto.
Qed.

Lemma find_filter_weaken {A} (p q : A -> bool) l :
  (forall x, p x = true -> q x = true) -> find p (filter q l) = find p l.
Proof.
  intros Hpq; induction l as [|x l IH]; simpl; auto.
  destruct (q x) eqn:Hq; simpl.
  - destruct (p x); auto.
  - destruct (p x) eqn:Hp; auto. rewrite (Hpq x Hp) in Hq; discriminate.
Qed.

Lemma cols_drop_col f c g :
  drop_col f c = Ok g -> cols g = filter (fun x => negb (val_eqb x c)) (cols f).
Proof. unfold drop_col; destruct (has_col f c); intros H; inversion H; auto. Qed.


Lemma wf_drop_col f c g : wf f -> drop_col f c = Ok g -> wf g.
Proof.
  unfold wf, drop_col; intros Hwf H; destruct (has_col f c); inversion H; subst; clear H.
  simpl; rewrite Forall_forall in *; intros r' Hr'.
  apply in_map_iff in Hr'; destruct Hr' as [r [<- Hin]].
  specialize (Hwf r Hin); rewrite length_map.
  exact (length_filter_combine (fun x => negb (val_eqb x c)) (cols f) r Hwf).
Qed.

Lemma get_col_drop_col f c g d :
  wf f -> drop_col f c = Ok g -> val_eqb d c = false -> get_col g d = get_col f d.
Proof.
  intros Hwf H Hdc; unfold drop_col in H; destruct (has_col f c); inversion H; subst; clear H.
  unfold get_col, has_col; simpl.
  assert (Hh : existsb (fun x => val_eqb x d) (filter (fun x => negb (val_eqb x c)) (cols f))
               = existsb (fun x => val_eqb x d) (cols f)).
  { induction (cols f) as [|x xs IH]; simpl; auto.
    destruct (val_eqb x c) eqn:Exc; simpl; rewrite IH; auto.
    destruct (val_eqb x d) eqn:Exd; auto.
    apply val_eqb_eq in Exc, Exd; subst; rewrite val_eqb_refl in Hdc; discriminate. }
  rewrite Hh; destruct (existsb (fun x => val_eqb x d) (cols f)); auto; f_equal.
  rewrite map_map; apply map_ext_in; intros r Hin.
  unfold wf in Hwf; rewrite Forall_forall in Hwf; specialize (Hwf r Hin).
  unfold cell_of; rewrite !lookup_label_find, filter_combine_fst by exact Hwf.
  rewrite find_filter_weaken; auto.
  intros [x y] Hx; simpl in *; apply val_eqb_eq in Hx; subst; now rewrite Hdc.
Qed.

Lemma length_get_col f c xs : get_col f c = Ok xs -> List.length xs = List.length (rows f).
Proof.
  unfold get_col; destruct (has_col f c); intros H; inversion H; now rewrite length_map.
Qed.

(** ** Sequence numbering *)

Lemma cumcount_from_length seen us : List.length (cumcount_from seen us) = List.length us.
Proof. revert seen; induction us; simpl; auto. Qed.





(** ** Extension dispatch *)



Lemma last_app_nonempty {A} (l ws : list A) d : ws <> [] -> last (l ++ ws) d = last ws d.
Proof.
  intros Hws; induction l as [|a l IH]; simpl; auto.
  rewrite <- IH; destruct (l ++ ws) eqn:E; auto.
  apply app_eq_nil in E; destruct E; contradiction.
Qed.







(** ** Monadic maps *)

Definition ok_or_nan (r : result val) : val :=
  match r with Ok v => v | Err _ => VNaN end.

Lemma mapM_map {A} (g : A -> result val) l vs :
  mapM g l = Ok vs -> vs = map (fun x => ok_or_nan (g x)) l.
Proof.
  revert vs; induction l as [|x l IH]; intros vs H; simpl in *.
  - inversion H; auto.
  - destruct (g x) as [y|e]; simpl in H; [|discriminate].
    destruct (mapM g l) as [ys|e]; simpl in H; [|discriminate].
    inversion H; subst; simpl; f_equal; auto.
Qed.

Lemma mapM_ok_in {A B} (g : A -> result B) l vs x :
  mapM g l = Ok vs -> In x l -> exists y, g x = Ok y.
Proof.
  revert vs; induction l as [|a l IH]; intros vs H Hin; simpl in *; [contradiction|].
  destruct (g a) as [y|e] eqn:Ea; simpl in H; [|discriminate].
  destruct (mapM g l) as [ys|e] eqn:El; simpl in H; [|discriminate].
  destruct Hin as [<-|Hin]; eauto.
Qed.



(** ** Row filters *)

Lemma filter_rows_In {A} (P : A -> bool) (rs : list A) r :
  In r (map snd (filter fst (combine (map P rs) rs))) -> In r rs /\ P r = true.
Proof.
  induction rs as [|x rs IH]; simpl; [tauto|].
  destruct (P x) eqn:Px; simpl.
  - intros [<-|H]; [auto|]. destruct (IH H); auto.
  - intros H; destruct (IH H); auto.
Qed.

Lemma filter_rows_map {A} (P : A -> bool) (rs : list A) :
  map snd (filter fst (combine (map P rs) rs)) = filter P rs.
Proof. induction rs as [|x rs IH]; simpl; auto. destruct (P x); simpl; f_equal; auto. Qed.

Lemma has_col_get_col f c xs : get_col f c = Ok xs -> has_col f c = true.
Proof. unfold get_col; destruct (has_col f c); auto; discriminate. Qed.

(** C8.  Every row that [merge_and_filter] returns has an [id] that occurs in
    the [id] column of the allowlist. *)
Theorem merge_and_filter_allowlist (train_df df_incl_last submission_df out : frame) :
  merge_and_filter train_df df_incl_last submission_df = Ok out ->
  exists ids allowed,
    get_col out (lbl "id") = Ok ids /\
    get_col submission_df (lbl "id") = Ok allowed /\
    incl ids allowed.
Proof.
  unfold merge_and_filter, merge_and_filter_select; intros H.
  destruct (merge_and_filter_assign train_df df_incl_last) as [t1|e]; simpl in H; [|discriminate].
  destruct (get_col t1 (lbl "id")) as [ids1|e] eqn:Hids; simpl in H; [|discriminate].
  destruct (get_col submission_df (lbl "id")) as [allowed|e] eqn:Hal; simpl in H; [|discriminate].
  inversion H; subst out; clear H.
  pose proof (has_col_get_col _ _ _ Hids) as Hc.
  unfold get_col in Hids |- *; rewrite Hc in Hids; inversion Hids; subst ids1; clear Hids.
  unfold filter_rows; simpl; unfold has_col in *; simpl; rewrite Hc.
  eexists; exists allowed; repeat split; auto.
  intros x Hx; apply in_map_iff in Hx; destruct Hx as [r [<- Hr]].
  rewrite map_map in Hr.
  apply (filter_rows_In (fun r => existsb (val_eqb (cell_of (lbl "id") (cols t1) r))
                                          (nodup val_eq_dec allowed))) in Hr.
  destruct Hr as [_ Hr]; apply existsb_exists in Hr; destruct Hr as [y [Hy Heq]].
  apply val_eqb_eq in Heq; rewrite Heq; apply nodup_In in Hy; exact Hy.
Qed.

Lemma merge_and_filter_allowlist_witness :
  exists out, merge_and_filter features_2u holdout_long_2u allow_2u = Ok out /\
  exists ids allowed, get_col out (lbl "id") = Ok ids /\
    get_col allow_2u (lbl "id") = Ok allowed /\ incl ids allowed.
Proof.
  eexists; split; [reflexivity|].
  apply (merge_and_filter_allowlist features_2u holdout_long_2u allow_2u).
  reflexivity.
Defined.

(** ** Group keys *)

Lemma insert_perm {A} (le : A -> A -> bool) x l : Permutation (insert le x l) (x :: l).
Proof.
  induction l as [|y l IH]; simpl; auto.
  destruct (le x y); auto.
  eapply perm_trans; [apply perm_skip, IH|apply perm_swap].
Qed.

Lemma isort_perm {A} (le : A -> A -> bool) l : Permutation (isort le l) l.
Proof.
  induction l as [|x l IH]; simpl; auto.
  eapply perm_trans; [apply insert_perm|apply perm_skip, IH].
Qed.

Lemma group_keys_In ks k : In k (group_keys ks) <-> In k ks /\ is_nan k = false.
Proof.
  unfold group_keys; split; intros H.
  - apply (Permutation_in _ (isort_perm _ _)), nodup_In, filter_In in H.
    destruct H as [H1 H2]; apply negb_true_iff in H2; auto.
  - apply (Permutation_in _ (Permutation_sym (isort_perm _ _))), nodup_In, filter_In.
    destruct H as [H1 H2]; rewrite H2; auto.
Qed.

Lemma group_keys_NoDup ks : NoDup (group_keys ks).
Proof.
  unfold group_keys; eapply Permutation_NoDup;
    [apply Permutation_sym, isort_perm|apply NoDup_nodup].
Qed.

Lemma unique_b_NoDup l : NoDup l -> unique_b l = true.
Proof. intros H; unfold unique_b; rewrite (nodup_fixed_point val_eq_dec H); apply Nat.eqb_refl. Qed.

(** ** Sums *)















(** ** Long format *)

Lemma value_ids_labels_from (P : val -> bool) cs pre :
  map (fun j => nth j (pre ++ cs) VNaN)
      (filter (fun j => P (nth j (pre ++ cs) VNaN)) (seq (List.length pre) (List.length cs))) =
  filter P cs.
Proof.
  revert pre; induction cs as [|x cs IH]; intros pre; simpl; auto.
  rewrite nth_middle.
  specialize (IH (pre ++ [x])).
  rewrite <- app_assoc, length_app in IH; simpl in IH.
  replace (List.length pre + 1)%nat with (S (List.length pre)) in IH by lia.
  destruct (P x); simpl; [rewrite nth_middle; f_equal|]; exact IH.
Qed.

Lemma value_ids_labels c f :
  map (fun j => nth j (cols f) VNaN) (value_ids c f) = filter (fun x => negb (val_eqb x c)) (cols f).
Proof. exact (value_ids_labels_from (fun x => negb (val_eqb x c)) (cols f) []). Qed.

Lemma melt_spec id vn valn f g :
  melt id vn valn f = Ok g -> val_eqb id vn = false ->
  get_col g vn = Ok (flat_map (fun c => repeat c (List.length (rows f)))
                              (filter (fun x => negb (val_eqb x id)) (cols f))) /\
  List.length (rows g) =
    (List.length (rows f) * List.length (filter (fun x => negb (val_eqb x id)) (cols f)))%nat.
Proof.
  unfold melt; intros H Hne.
  destruct (has_col f valn); [discriminate|].
  destruct (get_col f id); simpl in H; [|discriminate]; inversion H; subst g; clear H.
  rewrite <- value_ids_labels.
  unfold get_col, has_col; simpl; rewrite val_eqb_refl, orb_true_r; simpl.
  split.
  - f_equal. induction (value_ids id f) as [|j js IH]; simpl; auto.
    rewrite map_app, IH, map_map; f_equal.
    unfold cell_of; simpl; rewrite Hne, val_eqb_refl; apply map_const.
  - rewrite length_map. induction (value_ids id f) as [|j js IH]; simpl; [lia|].
    rewrite length_app, length_map, IH; lia.
Qed.

Lemma groupby_sum_cols key f h :
  groupby_sum key f = Ok h -> cols h = key :: filter (fun x => negb (val_eqb x key)) (cols f).
Proof.
  unfold groupby_sum; intros H.
  destruct (Nat.ltb 1 (count_label key f)); [discriminate|].
  destruct (get_col f key); simpl in H; [|discriminate].
  destruct (mapM _ _); simpl in H; [|discriminate].
  inversion H; subst; simpl; f_equal; apply value_ids_labels.
Qed.

Lemma require_columns_ok req f :
  require_columns req f = Ok tt -> forall c, In c req -> has_col f c = true.
Proof.
  unfold require_columns; intros H c Hc.
  destruct (missing_columns req f) eqn:Em; [|discriminate].
  destruct (has_col f c) eqn:Hf; auto.
  assert (Hin : In c (missing_columns req f)) by (apply filter_In; rewrite Hf; auto).
  rewrite Em in Hin; contradiction.
Qed.

Lemma split_dataset_cols df h o :
  split_dataset df = Ok (h, o) ->
  has_col df (lbl "order_number") = true /\ cols o = cols df /\
  cols h = lbl "user_id" :: filter (fun x => negb (val_eqb x (lbl "user_id"))) (cols df).
Proof.
  unfold split_dataset; intros H.
  destruct (require_columns _ df) as [[]|e] eqn:Hr; simpl in H; [|discriminate].
  destruct (groupby_transform_max _ _ df); simpl in H; [|discriminate].
  destruct (get_col df (lbl "order_number")); simpl in H; [|discriminate].
  destruct (groupby_sum _ _) as [h'|e] eqn:Hg; simpl in H; [|discriminate].
  inversion H; subst; clear H.
  split; [apply (require_columns_ok _ _ Hr); simpl; auto|split; [reflexivity|]].
  exact (groupby_sum_cols _ _ _ Hg).
Qed.

Lemma filter_negb_cons_self c l :
  filter (fun x => negb (val_eqb x c)) (c :: l) = filter (fun x => negb (val_eqb x c)) l.
Proof. simpl; rewrite val_eqb_refl; reflexivity. Qed.

Lemma filter_idem {A} (p : A -> bool) l : filter p (filter p l) = filter p l.
Proof.
  induction l as [|x l IH]; simpl; auto.
  destruct (p x) eqn:E; simpl; [rewrite E, IH|exact IH]; reflexivity.
Qed.

Lemma has_col_In f c : has_col f c = true -> In c (cols f).
Proof.
  unfold has_col; intros H; apply existsb_exists in H; destruct H as [x [Hx E]].
  apply val_eqb_eq in E; subst; exact Hx.
Qed.

(** C1 (as the code behaves).  For the two tables of [split_dataset],
    [long_format_transform] returns one row per (row, column) pair of each
    table over every column other than [user_id] -- the item columns and also
    [order_number] -- with no filtering and no aggregation: the [category]
    column lists each such column label once per row of the table, and the
    row count is (rows of the table) x (columns of the split input other than
    [user_id]). *)
Theorem long_format_transform_rows (df h o hl ol : frame) :
  split_dataset df = Ok (h, o) ->
  long_format_transform h o = Ok (hl, ol) ->
  let L := filter (fun x => negb (val_eqb x (lbl "user_id"))) (cols df) in
  In (lbl "order_number") L /\
  get_col hl (lbl "category") = Ok (flat_map (fun c => repeat c (List.length (rows h))) L) /\
  get_col ol (lbl "category") = Ok (flat_map (fun c => repeat c (List.length (rows o))) L) /\
  List.length (rows hl) = (List.length (rows h) * List.length L)%nat /\
  List.length (rows ol) = (List.length (rows o) * List.length L)%nat.
Proof.
  intros Hs Hlt L.
  destruct (split_dataset_cols _ _ _ Hs) as [Hon [Ho Hh]].
  unfold long_format_transform in Hlt.
  destruct (melt _ _ _ h) as [hl'|e] eqn:Mh; simpl in Hlt; [|discriminate].
  destruct (melt _ _ _ o) as [ol'|e] eqn:Mo; simpl in Hlt; [|discriminate].
  inversion Hlt; subst hl' ol'; clear Hlt.
  destruct (melt_spec _ _ _ _ _ Mh eq_refl) as [Ch Lh].
  destruct (melt_spec _ _ _ _ _ Mo eq_refl) as [Co Lo].
  rewrite Hh, filter_negb_cons_self, filter_idem in Ch, Lh.
  rewrite Ho in Co, Lo.
  split; [|repeat split; assumption].
  apply filter_In; split; [apply has_col_In; exact Hon|reflexivity].
Qed.

Lemma long_format_transform_rows_witness :
  match split_dataset seq_1u2 with
  | Ok (h, o) =>
      match long_format_transform h o with
      | Ok (hl, ol) => List.length (rows hl) = (List.length (rows h) * 2)%nat
      | Err _ => False
      end
  | Err _ => False
  end.
Proof.
  destruct (split_dataset seq_1u2) as [[h o]|e] eqn:Hs; [|discriminate].
  destruct (long_format_transform h o) as [[hl ol]|e] eqn:Hl.
  - exact (proj1 (proj2 (proj2 (proj2 (long_format_transform_rows _ _ _ _ _ Hs Hl))))).
  - vm_compute in Hs; inversion Hs; subst; discriminate.
Defined.

(** C1 fails as stated: one user with two orders and one item column gives a
    long history table of 2 rows and a long holdout table of 2 rows, not
    1 x 1, since [order_number] is melted as a category too. *)
Lemma long_format_counts_order_number :
  match split_dataset seq_1u2 with
  | Ok (h, o) =>
      match long_format_transform h o with
      | Ok (hl, ol) =>
          List.length (rows h) = 1%nat /\ List.length (rows o) = 1%nat /\
          List.length (rows hl) = 2%nat /\ List.length (rows ol) = 2%nat /\
          get_col hl (lbl "category") = Ok [VStr "A"; VStr "order_number"]
      | Err _ => False
      end
  | Err _ => False
  end.
Proof. vm_compute; repeat split. Qed.

(** ** The holdout split *)

Lemma combine_map_same {A B C} (f : A -> B) (g : A -> C) l :
  combine (map f l) (map g l) = map (fun x => (f x, g x)) l.
Proof. induction l; simpl; f_equal; auto. Qed.


Lemma filter_map_comm {A B} (p : B -> bool) (f : A -> B) l :
  filter p (map f l) = map f (filter (fun x => p (f x)) l).
Proof. induction l as [|x l IH]; simpl; auto. destruct (p (f x)); simpl; f_equal; auto. Qed.


Lemma groupby_sum_keys key f h :
  groupby_sum key f = Ok h ->
  exists ks, get_col f key = Ok ks /\ get_col h key = Ok (group_keys ks).
Proof.
  unfold groupby_sum; intros H.
  destruct (Nat.ltb 1 (count_label key f)); [discriminate|].
  destruct (get_col f key) as [ks|e]; simpl in H; [|discriminate].
  exists ks; split; auto.
  destruct (mapM _ (group_keys ks)) as [body|e] eqn:Hb; simpl in H; [|discriminate].
  inversion H; subst h; clear H.
  unfold get_col, has_col; simpl; rewrite val_eqb_refl; simpl; f_equal.
  revert body Hb; induction (group_keys ks) as [|k gks IH]; intros body Hb; simpl in Hb.
  - inversion Hb; reflexivity.
  - destruct (mapM _ (value_ids key f)); simpl in Hb; [|discriminate].
    destruct (mapM _ gks) as [b|e] eqn:Hr; simpl in Hb; [|discriminate].
    inversion Hb; subst; simpl.
    unfold cell_of at 1; simpl; rewrite val_eqb_refl; f_equal; auto.
Qed.




(** ** Per-user features *)

Lemma rows_set_col_nil f c vs : rows f = [] -> rows (set_col f c vs) = [].
Proof. intros H; unfold set_col; destruct (has_col f c); simpl; rewrite H; reflexivity. Qed.

Lemma get_col_nil f c : rows f = [] -> has_col f c = true -> get_col f c = Ok [].
Proof. intros H Hc; unfold get_col; rewrite Hc, H; reflexivity. Qed.



Lemma index_lookup_notin x ks vs : ~ In x ks -> index_lookup x ks vs = VNaN.
Proof.
  revert vs; induction ks as [|k ks IH]; intros [|v vs] Hn; simpl; auto.
  destruct (val_eqb k x) eqn:E.
  - apply val_eqb_eq in E; subst; exfalso; apply Hn; left; auto.
  - apply IH; intros Hin; apply Hn; right; exact Hin.
Qed.



(** C10 (as the code behaves).  With a one-row holdout table, the
    [order_number] lookup is squeezed to a scalar; mapping the history
    [user_id] column with it raises a [TypeError] as soon as that column has a
    row, but an empty history table goes through and gives an empty feature
    table. *)
Theorem calculate_features_single_holdout (hist hold : frame) (u n : val) :
  get_col hold (lbl "user_id") = Ok [u] ->
  get_col hold (lbl "order_number") = Ok [n] ->
  has_col hist (lbl "user_id") = true ->
  (rows hist <> [] -> calculate_features hist hold = Err (TypeError "object is not callable")) /\
  (rows hist = [] -> has_col hist (lbl "ordered") = true -> has_col hist (lbl "category") = true ->
   exists out, calculate_features hist hold = Ok out /\ rows out = []).
Proof.
  intros Hu Hn Hc; split.
  - intros Hne; unfold calculate_features; rewrite Hu, Hn; cbn [bind squeeze_col].
    unfold get_col at 1; rewrite Hc; cbn [bind].
    destruct (rows hist) as [|r rs]; [contradiction|]; reflexivity.
  - intros H0 Hord Hcat; unfold calculate_features; rewrite Hu, Hn; cbn [bind squeeze_col].
    rewrite (get_col_nil _ _ H0 Hc); cbn [bind series_map].
    set (h1 := set_col hist (lbl "orders_total") []).
    assert (R1 : rows h1 = []) by exact (rows_set_col_nil _ _ _ H0).
    rewrite (get_col_nil h1 (lbl "ordered") R1) by (unfold h1; rewrite has_col_set_col, Hord; reflexivity).
    rewrite (get_col_nil h1 (lbl "orders_total") R1)
      by (unfold h1; rewrite has_col_set_col, val_eqb_refl, orb_true_r; reflexivity).
    cbn [bind combine mapM].
    set (h2 := set_col h1 (lbl "rating") []).
    assert (R2 : rows h2 = []) by exact (rows_set_col_nil _ _ _ R1).
    rewrite (get_col_nil h2 (lbl "user_id") R2) by (unfold h2, h1; rewrite !has_col_set_col, Hc; reflexivity).
    rewrite (get_col_nil h2 (lbl "category") R2)
      by (unfold h2, h1; rewrite !has_col_set_col, Hcat; reflexivity).
    cbn [bind combine mapM].
    eexists; split; [reflexivity|exact (rows_set_col_nil _ _ _ R2)].
Qed.

Lemma calculate_features_single_holdout_witness :
  calculate_features long_hist_u1 seq_1u1 = Err (TypeError "object is not callable").
Proof.
  apply (proj1 (calculate_features_single_holdout long_hist_u1 seq_1u1 (VInt 1) (VInt 0)
                  eq_refl eq_refl eq_refl)).
  discriminate.
Defined.

(** C10 fails as stated: a single-user holdout table with an empty long
    history table gives an (empty) feature table, not an error; the whole
    pipeline on a dataset of one user with one order ends the same way. *)
Lemma calculate_features_single_holdout_empty_history :
  calculate_features long_hist_empty seq_1u1 =
  Ok (mkFrame [lbl "user_id"; lbl "category"; lbl "ordered"; lbl "orders_total";
               lbl "rating"; lbl "id"] []) /\
  process_data events_1u1 allow_2u =
  Ok (mkFrame [lbl "user_id"; lbl "category"; lbl "ordered"; lbl "orders_total";
               lbl "rating"; lbl "id"; lbl "target"; lbl "total_ordered"] []).
Proof. split; reflexivity. Qed.




(** ** The user-item matrix *)


Lemma pair_keys_In ks k :
  In k (pair_keys ks) <-> In k ks /\ is_nan (fst k) = false /\ is_nan (snd k) = false.
Proof.
  unfold pair_keys; split; intros H.
  - apply (Permutation_in _ (isort_perm _ _)), nodup_In, filter_In in H.
    destruct H as [H1 H2]; apply negb_true_iff, orb_false_iff in H2; tauto.
  - apply (Permutation_in _ (Permutation_sym (isort_perm _ _))), nodup_In, filter_In.
    destruct H as [H1 [H2 H3]]; rewrite H2, H3; auto.
Qed.









(** ** Frames of the caller *)

(** C2 (as the code behaves).  [add_purchase_counter], [merge_and_filter] and
    [calculate_total_ordered] assign a column to the frame object they are
    given, so the caller's object changes: after [add_purchase_counter] it has
    the new [order_number] column (and still [order_completed_at]), after
    [merge_and_filter] it has [target], and [calculate_total_ordered] returns
    that very object with [total_ordered] added.  [calculate_features], which
    copies its argument first, leaves the caller's object as it was. *)
Theorem stages_mutate_caller_frame :
  Heap.add_purchase_counter 0%nat [matrix_2u] =
    (Ok 1%nat, [set_col matrix_2u (lbl "order_number") [VInt 0; VInt 1; VInt 0];
                mkFrame [lbl "user_id"; lbl "A"; lbl "B"; lbl "order_number"]
                  [[VInt 1; VBool true; VBool false; VInt 0];
                   [VInt 1; VBool true; VBool true; VInt 1];
                   [VInt 2; VBool true; VBool false; VInt 0]]]) /\
  nth_error (snd (Heap.merge_and_filter 0%nat 1%nat 2%nat [features_2u; holdout_long_2u; allow_2u])) 0%nat =
    Some (set_col features_2u (lbl "target") [VInt 1; VInt 1; VInt 1]) /\
  Heap.calculate_total_ordered 0%nat [features_2u] =
    (Ok 0%nat, [set_col features_2u (lbl "total_ordered") [VInt 1; VInt 0; VInt 0]]) /\
  nth_error (snd (Heap.calculate_features 0%nat 1%nat [long_hist_u3; holdout_u12])) 0%nat = Some long_hist_u3.
Proof. repeat split; vm_compute; reflexivity. Qed.

(** * Further properties of the stages *)

(** ** Sorted group keys *)

Lemma Qle_bool_total a b : Qle_bool a b = false -> Qle_bool b a = true.
Proof.
  intros H; apply Qle_bool_iff, Qlt_le_weak, Qnot_le_lt; intros H'.
  apply Qle_bool_iff in H'; congruence.
Qed.

Lemma val_leb_total x y : val_leb x y = false -> val_leb y x = true.
Proof.
  destruct x as [a|a|a|[|]|a|], y as [b|b|b|[|]|b|]; simpl; intros H;
    try discriminate; try reflexivity; try (apply Qle_bool_total; exact H).
  rewrite String.compare_antisym.
  destruct (String.compare a b); simpl in *; congruence.
Qed.

Lemma pair_leb_total p q : pair_leb p q = false -> pair_leb q p = true.
Proof.
  unfold pair_leb.
  destruct (val_leb (fst p) (fst q)) eqn:E1; destruct (val_leb (fst q) (fst p)) eqn:E2;
    intros H; try discriminate; auto.
  - apply val_leb_total; exact H.
  - apply val_leb_total in E1; congruence.
Qed.

Section InsertionSort.
Variable A : Type.
Variable le : A -> A -> bool.
Hypothesis le_total : forall x y, le x y = false -> le y x = true.

Lemma HdRel_insert a x l :
  HdRel (fun u v => le u v = true) a l -> le a x = true ->
  HdRel (fun u v => le u v = true) a (insert le x l).
Proof.
  intros H Hax; destruct l as [|y l]; simpl; [constructor; exact Hax|].
  destruct (le x y); constructor; [exact Hax|]. exact (HdRel_inv H).
Qed.

Lemma insert_sorted x l :
  Sorted (fun u v => le u v = true) l -> Sorted (fun u v => le u v = true) (insert le x l).
Proof.
  induction l as [|y l IH]; intros H; simpl; [repeat constructor|].
  destruct (le x y) eqn:E.
  - constructor; [exact H|constructor; exact E].
  - apply Sorted_inv in H; destruct H as [Hl Hy].
    constructor; [exact (IH Hl)|].
    apply HdRel_insert; [exact Hy|exact (le_total _ _ E)].
Qed.

Lemma isort_sorted l : Sorted (fun u v => le u v = true) (isort le l).
Proof. induction l as [|x l IH]; simpl; [constructor|exact (insert_sorted x _ IH)]. Qed.

End InsertionSort.

Lemma pair_keys_NoDup ks : NoDup (pair_keys ks).
Proof.
  unfold pair_keys; apply (Permutation_NoDup (Permutation_sym (isort_perm _ _))), NoDup_nodup.
Qed.

Lemma group_keys_sorted ks : Sorted (fun u v => val_leb u v = true) (group_keys ks).
Proof. exact (isort_sorted _ _ val_leb_total _). Qed.

Lemma keys_of_rows (F : val * val -> list val) ks :
  map (fun r => (nth 0 r VNaN, nth 1 r VNaN)) (map (fun k => fst k :: snd k :: F k) ks) = ks.
Proof. induction ks as [|[x y] ks IH]; simpl; f_equal; auto. Qed.

(** [create_user_item_matrix] lists its groups in ascending (user, time)
    order, each group once, and no group has a NaN key. *)
Theorem create_user_item_matrix_sorted_keys (df out : frame) :
  create_user_item_matrix df = Ok out ->
  let keys := map (fun r => (nth 0 r VNaN, nth 1 r VNaN)) (rows out) in
  Sorted (fun p q => pair_leb p q = true) keys /\ NoDup keys /\
  Forall (fun k => is_nan (fst k) = false /\ is_nan (snd k) = false) keys.
Proof.
  intros H; unfold create_user_item_matrix in H; cbv zeta.
  destruct (require_columns _ df) as [[]|e]; simpl in H; [|discriminate].
  destruct (get_dummies_bool _ df) as [d|e]; simpl in H; [|discriminate].
  unfold groupby2_any in H.
  destruct (_ || _); [discriminate|].
  destruct (get_col d (lbl "user_id")) as [us|e]; simpl in H; [|discriminate].
  destruct (get_col d (lbl "order_completed_at")) as [ts|e]; simpl in H; [|discriminate].
  injection H as <-; cbn [rows]; rewrite keys_of_rows.
  split; [|split].
  - exact (isort_sorted _ _ pair_leb_total _).
  - apply pair_keys_NoDup.
  - apply Forall_forall; intros k Hin; apply pair_keys_In in Hin; tauto.
Qed.

Lemma create_user_item_matrix_sorted_keys_witness :
  let keys := map (fun r => (nth 0 r VNaN, nth 1 r VNaN)) (rows matrix_2u) in
  Sorted (fun p q => pair_leb p q = true) keys /\ NoDup keys /\
  Forall (fun k => is_nan (fst k) = false /\ is_nan (snd k) = false) keys.
Proof. apply (create_user_item_matrix_sorted_keys events_2u); vm_compute; reflexivity. Defined.

(** ** The split, row by row *)

(** [split_dataset] in terms of rows: a row is a last order when its
    [order_number] equals ([pd_eq]) the maximum over the rows of its user;
    the Holdout table keeps those rows, the History table sums the others. *)
Lemma split_dataset_rows df h o :
  split_dataset df = Ok (h, o) ->
  let fu := cell_of (lbl "user_id") (cols df) in
  let fo := cell_of (lbl "order_number") (cols df) in
  let G := fun k => if is_nan k then Ok VNaN
                    else vmax (map fo (filter (fun r => val_eqb (fu r) k) (rows df))) in
  let last := fun r => pd_eq (ok_or_nan (G (fu r))) (fo r) in
  has_col df (lbl "user_id") = true /\ has_col df (lbl "order_number") = true /\
  (forall r, In r (rows df) -> exists m, G (fu r) = Ok m) /\
  groupby_sum (lbl "user_id") (mkFrame (cols df) (filter (fun r => negb (last r)) (rows df))) = Ok h /\
  o = mkFrame (cols df) (filter last (rows df)).
Proof.
  intros Hs fu fo G last.
  unfold split_dataset in Hs.
  destruct (require_columns _ df) as [[]|e] eqn:Hr; simpl in Hs; [|discriminate].
  pose proof (require_columns_ok _ _ Hr) as Hcols.
  unfold groupby_transform_max in Hs.
  assert (Gu : get_col df (lbl "user_id") = Ok (map fu (rows df)))
    by (unfold get_col; rewrite Hcols by (simpl; auto); reflexivity).
  assert (Go : get_col df (lbl "order_number") = Ok (map fo (rows df)))
    by (unfold get_col; rewrite Hcols by (simpl; auto); reflexivity).
  rewrite Gu, Go in Hs; simpl in Hs.
  set (G' := fun k : val => if is_nan k then Ok VNaN
              else vmax (map snd (filter (fun p => val_eqb (fst p) k)
                                         (combine (map fu (rows df)) (map fo (rows df)))))) in Hs.
  assert (EG : forall k, G' k = G k).
  { intros k; unfold G', G; destruct (is_nan k); auto.
    rewrite combine_map_same, filter_map_comm, !map_map; reflexivity. }
  destruct (mapM G' (map fu (rows df))) as [mx|e] eqn:Hmx; simpl in Hs; [|discriminate].
  assert (HOk : forall r, In r (rows df) -> exists m, G (fu r) = Ok m).
  { intros r Hr'; rewrite <- EG; exact (mapM_ok_in _ _ _ _ Hmx (in_map _ _ _ Hr')). }
  apply mapM_map in Hmx; subst mx.
  assert (Em : map (fun '(a, b) => pd_eq a b)
                   (combine (map (fun x => ok_or_nan (G' x)) (map fu (rows df))) (map fo (rows df)))
               = map last (rows df)).
  { rewrite map_map, combine_map_same, map_map; apply map_ext; intros r; unfold last; rewrite EG; reflexivity. }
  rewrite Em, map_map in Hs; clear Em.
  destruct (groupby_sum _ _) as [h'|e] eqn:Hg; simpl in Hs; [|discriminate].
  inversion Hs; subst h' o; clear Hs.
  split; [apply Hcols; simpl; auto|split; [apply Hcols; simpl; auto|split; [exact HOk|split]]].
  - unfold filter_rows in Hg; simpl in Hg.
    rewrite <- (filter_rows_map (fun r => negb (last r))); exact Hg.
  - unfold filter_rows; rewrite filter_rows_map; reflexivity.
Qed.

(** [split_dataset] keeps the columns of its input in the Holdout table, whose
    rows are input rows with a (non-NaN) user; the History table has one row
    per user, in ascending order, each user a non-NaN user of the input.  Rows
    with a NaN [user_id] reach neither table. *)
Theorem split_dataset_users (df h o : frame) :
  split_dataset df = Ok (h, o) ->
  cols o = cols df /\
  (forall r, In r (rows o) -> In r (rows df) /\ is_nan (cell_of (lbl "user_id") (cols df) r) = false) /\
  exists hus, get_col h (lbl "user_id") = Ok hus /\
    Sorted (fun u v => val_leb u v = true) hus /\ NoDup hus /\
    forall u, In u hus -> is_nan u = false /\
      exists r, In r (rows df) /\ cell_of (lbl "user_id") (cols df) r = u.
Proof.
  intros Hs.
  destruct (split_dataset_rows _ _ _ Hs) as [Hu [_ [_ [Hg ->]]]].
  set (fu := cell_of (lbl "user_id") (cols df)) in *.
  split; [reflexivity|split].
  - intros r Hr; simpl in Hr; apply filter_In in Hr; destruct Hr as [Hr Hl]; split; auto.
    destruct (is_nan (fu r)) eqn:En; auto.
  - destruct (groupby_sum_keys _ _ _ Hg) as [ks [Hks Hh]].
    exists (group_keys ks); split; [exact Hh|split; [apply group_keys_sorted|split; [apply group_keys_NoDup|]]].
    intros u Hin; apply group_keys_In in Hin; destruct Hin as [Hin Hn]; split; auto.
    unfold get_col, has_col in Hks; simpl in Hks; fold (has_col df (lbl "user_id")) in Hks.
    rewrite Hu in Hks; inversion Hks; subst ks; clear Hks.
    apply in_map_iff in Hin; destruct Hin as [r [<- Hr]].
    apply filter_In in Hr; exists r; split; [tauto|reflexivity].
Qed.

Lemma split_dataset_users_witness :
  match split_dataset seq_1u2 with
  | Ok (h, o) => cols o = cols seq_1u2
  | Err _ => False
  end.
Proof.
  destruct (split_dataset seq_1u2) as [[h o]|e] eqn:Hs.
  - exact (proj1 (split_dataset_users _ _ _ Hs)).
  - vm_compute in Hs; discriminate.
Defined.

(** ** One Holdout row per user *)

Lemma is_nan_VInt z : is_nan (VInt z) = false.
Proof. reflexivity. Qed.










(** ** The frame [add_purchase_counter] returns *)

Lemma rows_drop_col f c g :
  drop_col f c = Ok g -> List.length (rows g) = List.length (rows f).
Proof.
  unfold drop_col; destruct (has_col f c); intros H; inversion H; simpl; apply length_map.
Qed.

Lemma cols_set_col f c vs :
  cols (set_col f c vs) = if has_col f c then cols f else cols f ++ [c].
Proof. unfold set_col; destruct (has_col f c); reflexivity. Qed.

Lemma cumcount_from_is_nan seen us : map is_nan (cumcount_from seen us) = map is_nan us.
Proof.
  revert seen; induction us as [|u us IH]; intros seen; simpl; auto.
  rewrite IH; f_equal; destruct (is_nan u) eqn:E; [reflexivity|apply is_nan_VInt].
Qed.

(** On success, [add_purchase_counter] returns a well-formed frame with
    as many rows as its input, whose columns are the input's without
    [order_completed_at], plus [order_number] at the end unless the input
    already had one (then overwritten in place); every other column is
    returned unchanged, and [order_number] is NaN exactly on the rows whose
    user is NaN. *)
Lemma add_purchase_counter_frame df out :
  wf df -> add_purchase_counter df = Ok out ->
  wf out /\
  cols out = filter (fun x => negb (val_eqb x (lbl "order_completed_at")))
               (if has_col df (lbl "order_number") then cols df else cols df ++ [lbl "order_number"]) /\
  List.length (rows out) = List.length (rows df) /\
  (forall d, val_eqb d (lbl "order_completed_at") = false -> val_eqb d (lbl "order_number") = false ->
     get_col out d = get_col df d) /\
  exists us ons, get_col df (lbl "user_id") = Ok us /\ get_col out (lbl "order_number") = Ok ons /\
    map is_nan ons = map is_nan us.
Proof.
  intros Hwf H; unfold add_purchase_counter, add_purchase_counter_assign in H.
  destruct (require_columns _ df); [|discriminate]; cbn [bind] in H.
  destruct (get_col df (lbl "user_id")) as [us|e] eqn:Hus; [|discriminate]; cbn [bind] in H.
  assert (Hl : List.length (cumcount us) = List.length (rows df)).
  { unfold cumcount; rewrite cumcount_from_length; exact (length_get_col _ _ _ Hus). }
  pose proof (wf_set_col df (lbl "order_number") (cumcount us) Hwf) as Hwf1.
  split; [exact (wf_drop_col _ _ _ Hwf1 H)|split; [|split; [|split]]].
  - rewrite (cols_drop_col _ _ _ H), cols_set_col; reflexivity.
  - rewrite (rows_drop_col _ _ _ H); exact (rows_set_col _ _ _ Hl).
  - intros d Hd1 Hd2.
    rewrite (get_col_drop_col _ _ _ _ Hwf1 H Hd1), (get_col_set_col _ _ _ _ Hwf Hl), Hd2; reflexivity.
  - exists us, (cumcount us); split; [reflexivity|split].
    + rewrite (get_col_drop_col _ _ _ _ Hwf1 H) by reflexivity.
      rewrite (get_col_set_col _ _ _ _ Hwf Hl); reflexivity.
    + apply cumcount_from_is_nan.
Qed.

Lemma add_purchase_counter_frame_witness :
  wf matrix_2u /\ add_purchase_counter matrix_2u = Ok (mkFrame
    [lbl "user_id"; lbl "A"; lbl "B"; lbl "order_number"]
    [[VInt 1; VBool true; VBool false; VInt 0];
     [VInt 1; VBool true; VBool true; VInt 1];
     [VInt 2; VBool true; VBool false; VInt 0]]) /\
  List.length (rows (mkFrame
    [lbl "user_id"; lbl "A"; lbl "B"; lbl "order_number"]
    [[VInt 1; VBool true; VBool false; VInt 0];
     [VInt 1; VBool true; VBool true; VInt 1];
     [VInt 2; VBool true; VBool false; VInt 0]])) = List.length (rows matrix_2u).
Proof.
  assert (Hw : wf matrix_2u) by (repeat constructor).
  assert (Ho : add_purchase_counter matrix_2u = Ok (mkFrame
    [lbl "user_id"; lbl "A"; lbl "B"; lbl "order_number"]
    [[VInt 1; VBool true; VBool false; VInt 0];
     [VInt 1; VBool true; VBool true; VInt 1];
     [VInt 2; VBool true; VBool false; VInt 0]])) by (vm_compute; reflexivity).
  split; [exact Hw|split; [exact Ho|]].
  exact (proj1 (proj2 (proj2 (add_purchase_counter_frame _ _ Hw Ho)))).
Defined.

(** ** Frames passed by reference: what each stage does to the caller's frames *)

Lemma nth_error_update {A} (s : list A) l f j :
  (l < List.length s)%nat ->
  nth_error (firstn l s ++ f :: skipn (S l) s) j = if Nat.eqb j l then Some f else nth_error s j.
Proof.
  revert l j; induction s as [|x s IH]; intros l j Hl; simpl in Hl; [lia|].
  destruct l as [|l], j as [|j]; simpl; auto.
  - rewrite IH by lia; reflexivity.
Qed.

Lemma length_update {A} (s : list A) l f :
  (l < List.length s)%nat -> List.length (firstn l s ++ f :: skipn (S l) s) = List.length s.
Proof.
  intros Hl; rewrite length_app, length_firstn; cbn [List.length]; rewrite length_skipn; lia.
Qed.

Lemma nth_error_snoc {A} (s : list A) x j :
  nth_error (s ++ [x]) j = if Nat.eqb j (List.length s) then Some x else nth_error s j.
Proof.
  destruct (Nat.eqb_spec j (List.length s)) as [->|E].
  - rewrite nth_error_app2, Nat.sub_diag by lia; reflexivity.
  - destruct (Nat.ltb_spec j (List.length s)).
    + rewrite nth_error_app1 by lia; reflexivity.
    + rewrite nth_error_app2 by lia.
      rewrite (proj2 (nth_error_None s j)) by lia.
      destruct (j - List.length s)%nat as [|k] eqn:Ek; [lia|destruct k; reflexivity].
Qed.

Lemma add_purchase_counter_steps df out :
  add_purchase_counter df = Ok out ->
  exists us, get_col df (lbl "user_id") = Ok us /\
    add_purchase_counter_assign df = Ok (set_col df (lbl "order_number") (cumcount us)) /\
    drop_col (set_col df (lbl "order_number") (cumcount us)) (lbl "order_completed_at") = Ok out.
Proof.
  unfold add_purchase_counter, add_purchase_counter_assign; intros H.
  destruct (require_columns _ df); [|discriminate]; cbn [bind] in *.
  destruct (get_col df (lbl "user_id")) as [us|e]; [|discriminate]; cbn [bind] in *.
  exists us; auto.
Qed.

(** [add_purchase_counter] on a frame held by the caller at [l]
    fails with the pure stage's error when the pure stage fails, and when the
    pure stage succeeds it succeeds too; it then overwrites the caller's
    frame with a copy carrying the [order_number] column (and still
    [order_completed_at]), leaves every other frame of the store as it was,
    and returns a new frame, allocated at the end of the store. *)
Lemma heap_add_purchase_counter_updates_caller s l df :
  nth_error s l = Some df ->
  (forall e, add_purchase_counter df = Err e -> fst (Heap.add_purchase_counter l s) = Err e) /\
  forall out, add_purchase_counter df = Ok out ->
  exists us s',
    get_col df (lbl "user_id") = Ok us /\
    Heap.add_purchase_counter l s = (Ok (List.length s), s') /\
    List.length s' = S (List.length s) /\
    nth_error s' l = Some (set_col df (lbl "order_number") (cumcount us)) /\
    nth_error s' (List.length s) = Some out /\
    (forall j, j <> l -> (j < List.length s)%nat -> nth_error s' j = nth_error s j).
Proof.
  intros Hl; split.
  { intros e H; unfold add_purchase_counter in H.
    unfold Heap.add_purchase_counter, Heap.sbind, Heap.deref, Heap.lift, Heap.update, Heap.alloc.
    rewrite Hl.
    destruct (add_purchase_counter_assign df) as [d1|e1]; cbn [bind] in H.
    - rewrite H; reflexivity.
    - inversion H; reflexivity. }
  intros out H.
  destruct (add_purchase_counter_steps _ _ H) as [us [Hus [Ha Hd]]].
  assert (Hlt : (l < List.length s)%nat) by (apply nth_error_Some; congruence).
  set (s1 := firstn l s ++ set_col df (lbl "order_number") (cumcount us) :: skipn (S l) s).
  exists us, (s1 ++ [out]); split; [exact Hus|].
  assert (Hs1 : List.length s1 = List.length s) by (apply length_update; exact Hlt).
  split; [|split; [|split; [|split]]].
  - unfold Heap.add_purchase_counter, Heap.sbind, Heap.deref, Heap.lift, Heap.update, Heap.alloc.
    rewrite Hl, Ha, Hd; fold s1; rewrite Hs1; reflexivity.
  - rewrite length_app, Hs1; simpl; lia.
  - rewrite nth_error_snoc, Hs1.
    destruct (Nat.eqb_spec l (List.length s)); [lia|].
    unfold s1; rewrite nth_error_update, Nat.eqb_refl by exact Hlt; reflexivity.
  - rewrite nth_error_snoc, Hs1, Nat.eqb_refl; reflexivity.
  - intros j Hj Hjs; rewrite nth_error_snoc, Hs1.
    destruct (Nat.eqb_spec j (List.length s)); [lia|].
    unfold s1; rewrite nth_error_update by exact Hlt.
    destruct (Nat.eqb_spec j l); [contradiction|reflexivity].
Qed.

Lemma heap_add_purchase_counter_updates_caller_witness :
  exists us s',
    get_col matrix_2u (lbl "user_id") = Ok us /\
    Heap.add_purchase_counter 0%nat [matrix_2u] = (Ok (List.length [matrix_2u]), s') /\
    List.length s' = S (List.length [matrix_2u]) /\
    nth_error s' 0%nat = Some (set_col matrix_2u (lbl "order_number") (cumcount us)) /\
    nth_error s' (List.length [matrix_2u]) = Some (mkFrame
      [lbl "user_id"; lbl "A"; lbl "B"; lbl "order_number"]
      [[VInt 1; VBool true; VBool false; VInt 0];
       [VInt 1; VBool true; VBool true; VInt 1];
       [VInt 2; VBool true; VBool false; VInt 0]]) /\
    (forall j, j <> 0%nat -> (j < List.length [matrix_2u])%nat -> nth_error s' j = nth_error [matrix_2u] j).
Proof.
  apply (proj2 (heap_add_purchase_counter_updates_caller [matrix_2u] 0%nat matrix_2u eq_refl)).
  vm_compute; reflexivity.
Defined.

Lemma firstn_length_app {A} (s t : list A) : firstn (List.length s) (s ++ t) = s.
Proof. induction s as [|x s IH]; simpl; f_equal; auto. Qed.

Lemma skipn_length_snoc {A} (s : list A) x : skipn (S (List.length s)) (s ++ [x]) = [].
Proof. induction s as [|y s IH]; simpl; auto. Qed.

(** [calculate_features] never changes a frame of the caller: whatever
    the outcome, the frames already in the store are left as they were; on
    success the result is a new frame, at the end of the store, holding what
    the pure stage computes from the two frames passed in. *)
Lemma heap_calculate_features_copy l_ex l_incl s r s' :
  Heap.calculate_features l_ex l_incl s = (r, s') ->
  firstn (List.length s) s' = s /\
  forall l, r = Ok l ->
    l = List.length s /\
    exists dfex dfincl t, nth_error s l_ex = Some dfex /\ nth_error s l_incl = Some dfincl /\
      calculate_features dfex dfincl = Ok t /\ nth_error s' l = Some t.
Proof.
  unfold Heap.calculate_features, Heap.sbind, Heap.deref, Heap.lift, Heap.update,
    Heap.alloc, Heap.ret.
  destruct (nth_error s l_ex) as [dfex|] eqn:E1.
  2:{ intros H; inversion H; subst; split; [apply firstn_all|discriminate]. }
  destruct (nth_error s l_incl) as [dfincl|] eqn:E2.
  2:{ intros H; inversion H; subst; split; [apply firstn_all|discriminate]. }
  destruct (calculate_features dfex dfincl) as [t|e] eqn:E3.
  2:{ intros H; inversion H; subst; split; [apply firstn_length_app|discriminate]. }
  intros H; cbv beta iota in H; rewrite firstn_length_app, skipn_length_snoc in H.
  inversion H; subst; clear H.
  split; [apply firstn_length_app|].
  intros l Hl; inversion Hl; subst; split; [reflexivity|].
  exists dfex, dfincl, t; repeat split; auto.
  rewrite nth_error_app2, Nat.sub_diag by lia; reflexivity.
Qed.


(** [calculate_total_ordered] on a frame held by the caller succeeds
    exactly as the pure stage does, and then returns the caller's own frame,
    changed in place to the stage's result; no frame is allocated and no other
    frame of the store changes. *)
Lemma heap_calculate_total_ordered_in_place s l train out :
  nth_error s l = Some train -> calculate_total_ordered train = Ok out ->
  exists s',
    Heap.calculate_total_ordered l s = (Ok l, s') /\
    List.length s' = List.length s /\
    nth_error s' l = Some out /\
    (forall j, j <> l -> nth_error s' j = nth_error s j).
Proof.
  intros Hl H.
  assert (Hlt : (l < List.length s)%nat) by (apply nth_error_Some; congruence).
  exists (firstn l s ++ out :: skipn (S l) s); split; [|split; [|split]].
  - unfold Heap.calculate_total_ordered, Heap.sbind, Heap.deref, Heap.lift, Heap.update, Heap.ret.
    rewrite Hl, H; reflexivity.
  - apply length_update; exact Hlt.
  - rewrite nth_error_update, Nat.eqb_refl by exact Hlt; reflexivity.
  - intros j Hj; rewrite nth_error_update by exact Hlt.
    destruct (Nat.eqb_spec j l); [contradiction|reflexivity].
Qed.

Lemma heap_calculate_features_copy_witness :
  match Heap.calculate_features 0%nat 1%nat [long_hist_u3; holdout_u12] with
  | (r, s') => firstn 2 s' = [long_hist_u3; holdout_u12]
  end.
Proof.
  destruct (Heap.calculate_features 0%nat 1%nat [long_hist_u3; holdout_u12]) as [r s'] eqn:E.
  exact (proj1 (heap_calculate_features_copy _ _ _ _ _ E)).
Defined.


Lemma heap_calculate_total_ordered_in_place_witness :
  match calculate_total_ordered features_2u with
  | Ok out =>
      exists s',
        Heap.calculate_total_ordered 0%nat [features_2u] = (Ok 0%nat, s') /\
        List.length s' = 1%nat /\ nth_error s' 0%nat = Some out /\
        (forall j, j <> 0%nat -> nth_error s' j = nth_error [features_2u] j)
  | Err _ => False
  end.
Proof.
  destruct (calculate_total_ordered features_2u) as [out|e] eqn:E.
  - exact (heap_calculate_total_ordered_in_place [features_2u] 0%nat _ _ eq_refl E).
  - vm_compute in E; discriminate.
Defined.

(** ** The frame [calculate_total_ordered] returns *)

(** On success, [calculate_total_ordered] returns a well-formed frame
    with the input's rows and columns, plus [total_ordered] at the end (or
    overwritten, if the input had it); every other column is unchanged.  A row
    whose category is NaN gets a NaN total, and two rows with the same
    category get the same total. *)
Lemma calculate_total_ordered_frame train out :
  wf train -> calculate_total_ordered train = Ok out ->
  wf out /\ List.length (rows out) = List.length (rows train) /\
  cols out = (if has_col train (lbl "total_ordered") then cols train
              else cols train ++ [lbl "total_ordered"]) /\
  (forall d, val_eqb d (lbl "total_ordered") = false -> get_col out d = get_col train d) /\
  exists cats ords tots,
    get_col train (lbl "category") = Ok cats /\ get_col train (lbl "ordered") = Ok ords /\
    get_col out (lbl "total_ordered") = Ok tots /\
    (forall i, nth_error cats i = Some VNaN -> nth_error tots i = Some VNaN) /\
    (forall i j C, nth_error cats i = Some C -> nth_error cats j = Some C ->
       nth_error tots i = nth_error tots j).
Proof.
  intros Hwf H.
  unfold calculate_total_ordered, groupby_col_sum in H.
  destruct (get_col train (lbl "category")) as [cats|e] eqn:Hc; [|discriminate]; cbn [bind] in H.
  destruct (get_col train (lbl "ordered")) as [ords|e] eqn:Ho; [|discriminate]; cbn [bind] in H.
  destruct (mapM _ (group_keys cats)) as [sums|e] eqn:Hs; cbn [bind] in H; [|discriminate].
  unfold series_map in H; rewrite (unique_b_NoDup _ (group_keys_NoDup cats)) in H; cbn [bind] in H.
  inversion H; subst out; clear H.
  set (tots := map (fun x => index_lookup x (group_keys cats) sums) cats).
  assert (Hl : List.length tots = List.length (rows train)).
  { unfold tots; rewrite length_map; exact (length_get_col _ _ _ Hc). }
  split; [exact (wf_set_col _ _ _ Hwf)|split; [exact (rows_set_col _ _ _ Hl)|split; [|split]]].
  - apply cols_set_col.
  - intros d Hd; rewrite (get_col_set_col _ _ _ _ Hwf Hl), Hd; reflexivity.
  - exists cats, ords, tots; split; [reflexivity|split; [reflexivity|split; [|split]]].
    + rewrite (get_col_set_col _ _ _ _ Hwf Hl), val_eqb_refl; reflexivity.
    + intros i Hi; unfold tots; rewrite nth_error_map, Hi; cbn [option_map]; f_equal.
      apply index_lookup_notin; intros Hk; apply group_keys_In in Hk.
      destruct Hk as [_ Hk]; discriminate.
    + intros i j C Hi Hj; unfold tots; rewrite !nth_error_map, Hi, Hj; reflexivity.
Qed.

Lemma calculate_total_ordered_frame_witness :
  wf features_2u /\ calculate_total_ordered features_2u =
    Ok (set_col features_2u (lbl "total_ordered") [VInt 1; VInt 0; VInt 0]) /\
  List.length (rows (set_col features_2u (lbl "total_ordered") [VInt 1; VInt 0; VInt 0])) =
    List.length (rows features_2u).
Proof.
  assert (Hw : wf features_2u) by (repeat constructor).
  assert (Ho : calculate_total_ordered features_2u =
    Ok (set_col features_2u (lbl "total_ordered") [VInt 1; VInt 0; VInt 0])) by (vm_compute; reflexivity).
  split; [exact Hw|split; [exact Ho|]].
  exact (proj1 (proj2 (calculate_total_ordered_frame _ _ Hw Ho))).
Defined.

(** ** The frame [merge_and_filter] returns *)

Definition select (mask : list bool) (xs : list val) : list val :=
  map snd (filter fst (combine mask xs)).

Lemma select_map {A} (mask : list bool) (g : A -> val) (l : list A) :
  map g (map snd (filter fst (combine mask l))) = select mask (map g l).
Proof.
  unfold select; revert l; induction mask as [|b mask IH]; intros [|x l]; simpl; auto.
  destruct b; simpl; rewrite IH; reflexivity.
Qed.

Lemma get_col_filter_rows mask f d :
  get_col (filter_rows mask f) d =
  match get_col f d with Ok xs => Ok (select mask xs) | Err e => Err e end.
Proof.
  unfold get_col, filter_rows, has_col; cbn [cols rows].
  destruct (existsb _ (cols f)); [|reflexivity].
  rewrite select_map; reflexivity.
Qed.

Lemma wf_filter_rows mask f : wf f -> wf (filter_rows mask f).
Proof.
  unfold wf, filter_rows; cbn [cols rows]; rewrite !Forall_forall; intros Hwf r Hr.
  apply in_map_iff in Hr; destruct Hr as [[b r'] [<- Hr]]; apply filter_In in Hr.
  apply Hwf; exact (in_combine_r _ _ _ _ (proj1 Hr)).
Qed.


Lemma existsb_nodup x l :
  existsb (val_eqb x) (nodup val_eq_dec l) = existsb (val_eqb x) l.
Proof.
  destruct (existsb (val_eqb x) l) eqn:E.
  - apply existsb_exists in E; destruct E as [y [Hy Hxy]].
    apply existsb_exists; exists y; split; [apply nodup_In|]; assumption.
  - apply not_true_iff_false; intros Hn; apply existsb_exists in Hn.
    destruct Hn as [y [Hy Hxy]]; apply nodup_In in Hy.
    assert (Ht : existsb (val_eqb x) l = true) by (apply existsb_exists; exists y; auto).
    congruence.
Qed.


Lemma mapM_first_err {A B} (g : A -> result B) l e :
  (forall x e', g x = Err e' -> e' = e) ->
  (exists x, In x l /\ is_err (g x) = true) -> mapM g l = Err e.
Proof.
  intros Hg [x [Hx He]]; induction l as [|y l IH]; [contradiction|].
  cbn [mapM]; destruct (g y) as [v|e'] eqn:Ey; cbn [bind].
  - destruct Hx as [->|Hx]; [rewrite Ey in He; discriminate|].
    rewrite (IH Hx); reflexivity.
  - rewrite (Hg _ _ Ey); reflexivity.
Qed.

Lemma mapM_astype_int_nan raw :
  In VNaN raw -> Forall (fun v => v = VNaN \/ is_err (astype_int v) = false) raw ->
  mapM astype_int raw = Err (ValueError "cannot convert float NaN to integer").
Proof.
  induction raw as [|x raw IH]; intros Hin Hall; [contradiction|].
  apply Forall_cons_iff in Hall; destruct Hall as [Hx Hrest].
  cbn [mapM]; destruct Hx as [Hx|Hx]; [subst x; reflexivity|].
  destruct (astype_int x) as [y|e] eqn:Ex; [|discriminate]; cbn [bind].
  destruct Hin as [Hn|Hin]; [subst x; simpl in Ex; discriminate|].
  rewrite (IH Hin Hrest); reflexivity.
Qed.

(** [merge_and_filter] fails with a [ValueError] when the holdout's
    [target] column holds a missing value (NaN) and each of its other cells is
    NaN or a value [astype(int)] converts. *)
Lemma merge_and_filter_target_nan train incl sub raw :
  get_col incl (lbl "target") = Ok raw -> In VNaN raw ->
  Forall (fun v => v = VNaN \/ is_err (astype_int v) = false) raw ->
  exists msg, merge_and_filter train incl sub = Err (ValueError msg).
Proof.
  intros Hr Hin Hall; unfold merge_and_filter, merge_and_filter_assign.
  rewrite Hr; cbn [bind]; rewrite (mapM_astype_int_nan raw Hin Hall).
  eexists; reflexivity.
Qed.


Lemma merge_and_filter_target_nan_witness :
  exists msg,
    merge_and_filter features_2u
      (mkFrame [lbl "user_id"; lbl "category"; lbl "target"]
         [[VInt 1; VStr "A"; VBool true]; [VInt 1; VStr "B"; VNaN]; [VInt 2; VStr "A"; VStr " 7"]])
      allow_2u = Err (ValueError msg).
Proof.
  apply (merge_and_filter_target_nan _ _ _ [VBool true; VNaN; VStr " 7"]); [reflexivity|right; left; reflexivity|].
  repeat constructor; first [left; reflexivity|right; reflexivity].
Defined.

(** ** The frame [process_data] returns *)

Lemma melt_wf id vn valn f g :
  melt id vn valn f = Ok g -> wf g /\ cols g = [id; vn; valn].
Proof.
  unfold melt; intros H.
  destruct (has_col f valn); [discriminate|].
  destruct (get_col f id); cbn [bind] in H; [|discriminate]; inversion H; subst g; clear H.
  split; [|reflexivity].
  unfold wf; cbn [cols rows]; apply Forall_forall; intros r Hr.
  apply in_flat_map in Hr; destruct Hr as [j [_ Hr]].
  apply in_map_iff in Hr; destruct Hr as [r' [<- _]]; reflexivity.
Qed.

Lemma cols_set_col_new f c vs : has_col f c = false -> cols (set_col f c vs) = cols f ++ [c].
Proof. intros H; rewrite cols_set_col, H; reflexivity. Qed.

Lemma long_format_transform_result h o hl ol :
  long_format_transform h o = Ok (hl, ol) ->
  melt (lbl "user_id") (lbl "category") (lbl "ordered") h = Ok hl /\
  melt (lbl "user_id") (lbl "category") (lbl "target") o = Ok ol.
Proof.
  unfold long_format_transform; intros H.
  destruct (melt _ _ (lbl "ordered") h) as [a|e]; cbn [bind] in H; [|discriminate].
  destruct (melt _ _ (lbl "target") o) as [b|e]; cbn [bind] in H; [|discriminate].
  inversion H; subst; auto.
Qed.

Lemma calculate_features_result hist hold t :
  calculate_features hist hold = Ok t ->
  exists ot rt ids,
    t = set_col (set_col (set_col hist (lbl "orders_total") ot) (lbl "rating") rt) (lbl "id") ids.
Proof.
  unfold calculate_features; intros H.
  destruct (get_col hold (lbl "user_id")); cbn [bind] in H; [|discriminate].
  destruct (get_col hold (lbl "order_number")); cbn [bind] in H; [|discriminate].
  destruct (get_col hist (lbl "user_id")); cbn [bind] in H; [|discriminate].
  destruct (series_map _ _) as [ot|e]; cbn [bind] in H; [|discriminate].
  destruct (get_col _ (lbl "ordered")); cbn [bind] in H; [|discriminate].
  destruct (get_col _ (lbl "orders_total")); cbn [bind] in H; [|discriminate].
  destruct (mapM _ _) as [rt|e]; cbn [bind] in H; [|discriminate].
  destruct (get_col _ (lbl "user_id")); cbn [bind] in H; [|discriminate].
  destruct (get_col _ (lbl "category")); cbn [bind] in H; [|discriminate].
  destruct (mapM _ _) as [ids|e]; cbn [bind] in H; [|discriminate].
  inversion H; subst; eauto.
Qed.

Lemma merge_and_filter_result t incl sub m :
  merge_and_filter t incl sub = Ok m ->
  exists tgs ids allowed,
    get_col (set_col t (lbl "target") (align (List.length (rows t)) tgs)) (lbl "id") = Ok ids /\
    get_col sub (lbl "id") = Ok allowed /\
    m = filter_rows (map (fun x => existsb (val_eqb x) (nodup val_eq_dec allowed)) ids)
                    (set_col t (lbl "target") (align (List.length (rows t)) tgs)).
Proof.
  unfold merge_and_filter, merge_and_filter_assign, merge_and_filter_select; intros H.
  destruct (get_col incl (lbl "target")) as [raw|e]; cbn [bind] in H; [|discriminate].
  destruct (mapM astype_int raw) as [tgs|e]; cbn [bind] in H; [|discriminate].
  destruct (get_col _ (lbl "id")) as [ids|e] eqn:Hi; cbn [bind] in H; [|discriminate].
  destruct (get_col sub (lbl "id")) as [allowed|e]; cbn [bind] in H; [|discriminate].
  inversion H; subst; exists tgs, ids, allowed; auto.
Qed.

Lemma calculate_total_ordered_result m out :
  calculate_total_ordered m = Ok out ->
  exists tots, List.length tots = List.length (rows m) /\ out = set_col m (lbl "total_ordered") tots.
Proof.
  unfold calculate_total_ordered; intros H.
  destruct (groupby_col_sum _ _ m) as [sq|e]; cbn [bind] in H; [|discriminate].
  destruct (get_col m (lbl "category")) as [cats|e] eqn:Hc; cbn [bind] in H; [|discriminate].
  destruct (series_map cats sq) as [tots|e] eqn:Hs; cbn [bind] in H; [|discriminate].
  inversion H; subst; exists tots; split; [|reflexivity].
  rewrite <- (length_get_col _ _ _ Hc).
  unfold series_map in Hs; destruct sq as [v|idx vs].
  - destruct cats; inversion Hs; reflexivity.
  - destruct (unique_b idx); inversion Hs; apply length_map.
Qed.

Lemma select_map_self (P : val -> bool) xs x : In x (select (map P xs) xs) -> P x = true.
Proof. unfold select; intros H; exact (proj2 (filter_rows_In P xs x H)). Qed.

(** On success, [process_data] returns a well-formed table whose
    columns are exactly [user_id], [category], [ordered], [orders_total],
    [rating], [id], [target] and [total_ordered], in this order, and every
    [id] it holds occurs in the [id] column of the submission table. *)
Lemma process_data_output data sub out :
  process_data data sub = Ok out ->
  wf out /\
  cols out = [lbl "user_id"; lbl "category"; lbl "ordered"; lbl "orders_total";
              lbl "rating"; lbl "id"; lbl "target"; lbl "total_ordered"] /\
  exists ids allowed, get_col out (lbl "id") = Ok ids /\ get_col sub (lbl "id") = Ok allowed /\
    incl ids allowed.
Proof.
  unfold process_data; intros H.
  destruct (create_user_item_matrix data) as [f1|e]; cbn [bind] in H; [|discriminate].
  destruct (add_purchase_counter f1) as [f2|e]; cbn [bind] in H; [|discriminate].
  destruct (split_dataset f2) as [[h o]|e]; cbn [bind] in H; [|discriminate].
  destruct (long_format_transform h o) as [[hl ol]|e] eqn:El; cbn [bind] in H; [|discriminate].
  destruct (calculate_features hl o) as [t|e] eqn:Ec; cbn [bind] in H; [|discriminate].
  destruct (merge_and_filter t ol sub) as [m|e] eqn:Em; cbn [bind] in H; [|discriminate].
  destruct (long_format_transform_result _ _ _ _ El) as [Hhl _].
  destruct (melt_wf _ _ _ _ _ Hhl) as [Hwl Hcl].
  destruct (calculate_features_result _ _ _ Ec) as [ot [rt [ids0 ->]]].
  destruct (merge_and_filter_result _ _ _ _ Em) as [tgs [ids [allowed [Hi [Ha ->]]]]].
  destruct (calculate_total_ordered_result _ _ H) as [tots [Hlt ->]].
  set (t := set_col (set_col (set_col hl (lbl "orders_total") ot) (lbl "rating") rt) (lbl "id") ids0).
  set (t1 := set_col t (lbl "target") (align (List.length (rows t)) tgs)).
  set (P := fun x => existsb (val_eqb x) (nodup val_eq_dec allowed)).
  assert (Hwt : wf t) by (unfold t; repeat apply wf_set_col; exact Hwl).
  assert (Hwm : wf (filter_rows (map P ids) t1)) by (apply wf_filter_rows, wf_set_col, Hwt).
  assert (Hct : cols t = [lbl "user_id"; lbl "category"; lbl "ordered"; lbl "orders_total";
                          lbl "rating"; lbl "id"])
    by (unfold t; rewrite !cols_set_col, !has_col_set_col; unfold has_col; rewrite Hcl; reflexivity).
  split; [apply wf_set_col, Hwm|split].
  - rewrite cols_set_col; unfold has_col; cbn [cols filter_rows]; unfold t1.
    rewrite cols_set_col; unfold has_col; rewrite Hct; reflexivity.
  - exists (select (map P ids) ids), allowed; split; [|split; [exact Ha|]].
    + rewrite (get_col_set_col _ _ _ _ Hwm Hlt); cbn [val_eqb].
      replace (val_eqb (lbl "id") (lbl "total_ordered")) with false by reflexivity.
      rewrite get_col_filter_rows; unfold t1, t; rewrite Hi; reflexivity.
    + intros x Hx; apply select_map_self in Hx; unfold P in Hx.
      rewrite existsb_nodup in Hx; apply existsb_exists in Hx.
      destruct Hx as [y [Hy Hxy]]; apply val_eqb_eq in Hxy; subst; exact Hy.
Qed.

Lemma process_data_output_witness :
  match process_data events_2u allow_2u with
  | Ok out => wf out
  | Err _ => False
  end.
Proof.
  destruct (process_data events_2u allow_2u) as [out|e] eqn:E.
  - exact (proj1 (process_data_output _ _ _ E)).
  - vm_compute in E; discriminate.
Defined.

(** ** Errors of [process_data] and [calculate_features] *)

(** [process_data] fails with [MissingColumns], naming exactly the
    columns among [cart], [user_id] and [order_completed_at] (in this order)
    that the event table lacks, whenever it lacks one of them; the submission
    table plays no part. *)
Lemma process_data_missing_columns data sub :
  missing_columns [lbl "cart"; lbl "user_id"; lbl "order_completed_at"] data <> [] ->
  process_data data sub =
  Err (MissingColumns (missing_columns [lbl "cart"; lbl "user_id"; lbl "order_completed_at"] data)).
Proof.
  intros Hm; unfold process_data, create_user_item_matrix, require_columns.
  destruct (missing_columns _ data) as [|c cs]; [contradiction|reflexivity].
Qed.

Lemma process_data_missing_columns_witness :
  process_data (mkFrame [lbl "user_id"; lbl "item"] [[VInt 1; VStr "A"]]) allow_2u =
  Err (MissingColumns [lbl "cart"; lbl "order_completed_at"]).
Proof.
  apply (process_data_missing_columns (mkFrame [lbl "user_id"; lbl "item"] [[VInt 1; VStr "A"]]) allow_2u).
  discriminate.
Defined.

Lemma length_nodup_le (l : list val) : (List.length (nodup val_eq_dec l) <= List.length l)%nat.
Proof.
  induction l as [|x l IH]; simpl; [lia|].
  destruct (in_dec val_eq_dec x l); simpl; lia.
Qed.

Lemma unique_b_true_NoDup l : unique_b l = true -> NoDup l.
Proof.
  unfold unique_b; intros H; apply Nat.eqb_eq in H; revert H.
  induction l as [|x l IH]; simpl; intros H; [constructor|].
  destruct (in_dec val_eq_dec x l) as [Hin|Hin].
  - pose proof (length_nodup_le l); lia.
  - constructor; [exact Hin|apply IH; simpl in H; lia].
Qed.

(** [calculate_features] fails with [InvalidIndexError] whenever a
    user occurs twice in the holdout table and that table does not have
    exactly one row, even when the history table has no row. *)
Lemma calculate_features_duplicate_holdout_user hist hold us ons :
  get_col hold (lbl "user_id") = Ok us -> get_col hold (lbl "order_number") = Ok ons ->
  List.length us <> 1%nat -> ~ NoDup us -> has_col hist (lbl "user_id") = true ->
  calculate_features hist hold = Err InvalidIndexError.
Proof.
  intros Hu Ho Hl Hnd Hh; unfold calculate_features.
  rewrite Hu, Ho; cbn [bind].
  assert (Hlo : List.length ons <> 1%nat)
    by (rewrite (length_get_col _ _ _ Ho), <- (length_get_col _ _ _ Hu); exact Hl).
  assert (Hsq : squeeze_col us ons = SqSeries us ons)
    by (unfold squeeze_col; destruct ons as [|v [|w ons]]; simpl in Hlo; [reflexivity|lia|reflexivity]).
  rewrite Hsq; unfold get_col at 1; rewrite Hh; cbn [bind].
  unfold series_map.
  destruct (unique_b us) eqn:E; [apply unique_b_true_NoDup in E; contradiction|reflexivity].
Qed.

Lemma calculate_features_duplicate_holdout_user_witness :
  calculate_features long_hist_empty
    (mkFrame [lbl "user_id"; lbl "order_number"] [[VInt 1; VInt 0]; [VInt 1; VInt 1]]) =
  Err InvalidIndexError.
Proof.
  apply (calculate_features_duplicate_holdout_user _ _ [VInt 1; VInt 1] [VInt 0; VInt 1]);
    [reflexivity|reflexivity|discriminate| |reflexivity].
  intros H; inversion H as [|? ? Hn]; apply Hn; left; reflexivity.
Defined.

(** ** Row layout of [melt] *)




(** ** The frame [calculate_features] returns *)





(** ** [split_dataset] on a table with no row *)

(** On a table with no row that has the [user_id] and [order_number]
    columns (and one [user_id] column only), [split_dataset] succeeds with two
    empty tables: the history table has [user_id] followed by the other
    columns, the holdout table the input's columns. *)
Lemma split_dataset_empty df :
  rows df = [] -> has_col df (lbl "user_id") = true -> has_col df (lbl "order_number") = true ->
  (count_label (lbl "user_id") df <= 1)%nat ->
  split_dataset df =
  Ok (mkFrame (lbl "user_id" :: filter (fun x => negb (val_eqb x (lbl "user_id"))) (cols df)) [],
      mkFrame (cols df) []).
Proof.
  intros Hr Hu Ho Hc; unfold split_dataset, require_columns, missing_columns.
  cbn [filter]; rewrite Hu, Ho; cbn [negb bind].
  unfold groupby_transform_max.
  rewrite (get_col_nil _ _ Hr Hu), (get_col_nil _ _ Hr Ho); cbn [bind mapM combine map].
  unfold filter_rows; rewrite Hr; cbn [combine filter map].
  unfold groupby_sum, count_label; cbn [cols rows].
  unfold count_label in Hc; destruct (Nat.ltb_spec 1 (List.length (filter (fun x => val_eqb x (lbl "user_id")) (cols df)))) as [Hlt|_]; [lia|].
  rewrite (get_col_nil (mkFrame (cols df) []) (lbl "user_id") eq_refl Hu); cbn [bind].
  unfold group_keys; cbn [filter nodup isort mapM bind].
  do 4 f_equal; exact (value_ids_labels (lbl "user_id") (mkFrame (cols df) [])).
Qed.

Lemma split_dataset_empty_witness :
  split_dataset (mkFrame [lbl "user_id"; lbl "A"; lbl "order_number"] []) =
  Ok (mkFrame [lbl "user_id"; lbl "A"; lbl "order_number"] [],
      mkFrame [lbl "user_id"; lbl "A"; lbl "order_number"] []).
Proof.
  apply (split_dataset_empty (mkFrame [lbl "user_id"; lbl "A"; lbl "order_number"] []));
    [reflexivity|reflexivity|reflexivity|cbv; lia].
Defined.

(** ** [add_purchase_counter] followed by [split_dataset] *)




(** ** The History table: column sums per user *)






